(** * tophatbot: a shallow embedding of [tophatbot/bot.py]

    The client of the quiz platform is embedded as state-passing code over
    an explicit object state (the attributes of [self]), an explicit random
    generator and a trace of the interactions with the outside (requests,
    console lines, warnings, pauses).  The remote platform is a record of
    response functions. *)

From Stdlib Require Import ZArith QArith.
From stdpp Require Import base tactics option list strings pretty sorting.

Local Open Scope Z_scope.

(** ** Python strings *)

Module PyStr.

(** [s.startswith(p)] *)
Definition startswith (s p : string) : bool := String.prefix p s.

(** [sub in s] *)
Fixpoint contains (sub s : string) : bool :=
  String.prefix sub s ||
  match s with
  | EmptyString => false
  | String _ s' => contains sub s'
  end.

(** [s.split(sep)] for a non-empty [sep]: the string is scanned from the
    left, every occurrence of [sep] closes the current part and the scan
    resumes behind it.  [skip] counts the characters of a matched
    separator that are still to be passed over, [cur] is the current part,
    reversed. *)
Fixpoint split_go (sep : string) (skip : nat) (cur : string) (s : string)
  : list string :=
  match s with
  | EmptyString => [String.rev cur]
  | String c s' =>
      match skip with
      | S k => split_go sep k cur s'
      | O =>
          if String.prefix sep s
          then String.rev cur :: split_go sep (String.length sep - 1) "" s'
          else split_go sep 0 (String c cur) s'
      end
  end.

Definition split (s sep : string) : list string := split_go sep 0 "" s.

(** [sep.join(parts)] *)
Fixpoint join (sep : string) (parts : list string) : string :=
  match parts with
  | [] => ""
  | [p] => p
  | p :: ps => p +:+ sep +:+ join sep ps
  end.

(** The characters of a string, as one-character strings (iteration). *)
Fixpoint chars (s : string) : list string :=
  match s with
  | EmptyString => []
  | String c s' => String c "" :: chars s'
  end.

(** No occurrence of [sep] starts inside the current part [cur] (kept
    reversed) when [s] is what remains to be scanned. *)
Definition no_occ (sep cur s : string) : Prop :=
  ∀ t u, String.rev cur = t +:+ u → u ≠ "" → String.prefix sep (u +:+ s) = false.

End PyStr.

(** ** Python values, as decoded from JSON *)

#[warnings="-register-all"]
Inductive pyval : Type :=
  | PNone
  | PBool (b : bool)
  | PInt (z : Z)
  | PStr (s : string)
  | PList (l : list pyval)
  | PDict (items : list (string * pyval)).

(** [v is False] *)
Definition is_False (v : pyval) : bool :=
  match v with
  | PBool false => true
  | _ => false
  end.

(** Truth value of [v] in a condition. *)
Definition truthy (v : pyval) : bool :=
  match v with
  | PNone => false
  | PBool b => b
  | PInt z => negb (z =? 0)
  | PStr s => negb (bool_decide (s = ""))
  | PList l => negb (bool_decide (length l = 0%nat))
  | PDict d => negb (bool_decide (length d = 0%nat))
  end.

(** ** Exceptions and results *)

Inductive exn : Type :=
  | IndexError
  | KeyError
  | TypeError
  | AttributeError
  | AssertionError.

Inductive result (A : Type) : Type :=
  | Ok (a : A)
  | Raise (e : exn).
Arguments Ok {A} a.
Arguments Raise {A} e.

#[global] Instance result_ret : MRet result := fun _ a => Ok a.
#[global] Instance result_bind : MBind result := fun _ _ f r =>
  match r with
  | Ok a => f a
  | Raise e => Raise e
  end.

(** ** Python dictionaries: association lists in insertion order *)

Module PyDict.
Section pydict.
Context {K V : Type} `{EqDecision K}.

(** [d.get(k)] *)
Fixpoint get (d : list (K * V)) (k : K) : option V :=
  match d with
  | [] => None
  | (k', v) :: d' => if decide (k' = k) then Some v else get d' k
  end.

(** [k in d] *)
Definition mem (k : K) (d : list (K * V)) : bool :=
  match get d k with
  | Some _ => true
  | None => false
  end.

(** [d[k] = v]: an existing key keeps its position, a new key goes last. *)
Fixpoint set (k : K) (v : V) (d : list (K * V)) : list (K * V) :=
  match d with
  | [] => [(k, v)]
  | (k', v') :: d' =>
      if decide (k' = k) then (k, v) :: d' else (k', v') :: set k v d'
  end.

(** [d.update(other)] *)
Definition update (d other : list (K * V)) : list (K * V) :=
  foldl (fun acc kv => set kv.1 kv.2 acc) d other.

(** [{k: v for k, v in items}] *)
Definition of_items (items : list (K * V)) : list (K * V) := update [] items.

Definition keys (d : list (K * V)) : list K := d.*1.
End pydict.
End PyDict.

(** ** Data model *)

(** A question object of the question-list response (fields [id],
    [question], [type], [has_correct_answer], [choices],
    [correct_answers]).  The last three are kept as raw decoded values:
    the code inspects them dynamically. *)
Record question : Type := {
  q_id : Z;
  q_question : string;
  q_type : string;
  q_has_correct_answer : pyval;
  q_choices : pyval;
  q_correct_answers : pyval
}.

(** The value stored per question id in [self._questions]. *)
Record entry : Type := {
  e_question : string;
  e_answer : pyval;
  e_type : string;
  e_has_correct_answer : pyval
}.

(** The remote platform, one response function per endpoint: the cookies
    set by the CSRF bootstrap response, the value of the [TH_JWT] header of
    the login response (if it has one), the (display name, id) pairs of the
    chapter tree in the order of the response, the question list of a
    chapter, and the body of the response to an answer. *)
Record server : Type := {
  srv_csrf : list (string * string);
  srv_login : string → string → option string;
  srv_tree : Z → list (string * Z);
  srv_question_data : Z → list question;
  srv_answer : Z → pyval → string
}.

(** What the program does to the outside, in order. *)
Inductive event : Type :=
  | EvGet (url : string) (params : list (string * pyval))
  | EvPost (url : string) (data : list (string * pyval))
  | EvPrint (line : string)
  | EvWrapPrint (s1 : string) (s2 : pyval)
  | EvWarn (message : string)
  | EvSleep (delay : Q).

(** The attributes of [self]; [headers] and [cookies] are those of
    [self.session]. *)
Record bot : Type := {
  username : string;
  password : string;
  course_id : Z;
  headers : list (string * string);
  cookies : list (string * string);
  _jwt : string;
  _chapters : list (string * Z);
  _questions : list (Z * entry)
}.

(** The object, the outputs the random generator will give next, and the
    trace so far. *)
Record state : Type := {
  self : bot;
  rng : nat → nat;
  trace : list event
}.

(** An object before [__init__] has assigned its attributes. *)
Definition blank : bot :=
  {| username := ""; password := ""; course_id := 0;
     headers := []; cookies := []; _jwt := "";
     _chapters := []; _questions := [] |}.

Definition M (A : Type) : Type := state → result A * state.

#[global] Instance M_ret : MRet M := fun _ a st => (Ok a, st).
#[global] Instance M_bind : MBind M := fun _ _ f m st =>
  match m st with
  | (Ok a, st') => f a st'
  | (Raise e, st') => (Raise e, st')
  end.

Definition raise {A} (e : exn) : M A := fun st => (Raise e, st).
Definition lift {A} (r : result A) : M A := fun st => (r, st).
Definition emit (e : event) : M unit := fun st =>
  (Ok tt, {| self := self st; rng := rng st; trace := trace st ++ [e] |}).
Definition get_self : M bot := fun st => (Ok (self st), st).
Definition put_self (b : bot) : M unit := fun st =>
  (Ok tt, {| self := b; rng := rng st; trace := trace st |}).

Definition set_credentials (user pass : string) (cid : Z) (b : bot) : bot :=
  {| username := user; password := pass; course_id := cid;
     headers := headers b; cookies := cookies b; _jwt := _jwt b;
     _chapters := _chapters b; _questions := _questions b |}.
Definition set_headers (h : list (string * string)) (b : bot) : bot :=
  {| username := username b; password := password b; course_id := course_id b;
     headers := h; cookies := cookies b; _jwt := _jwt b;
     _chapters := _chapters b; _questions := _questions b |}.
Definition set_cookies (c : list (string * string)) (b : bot) : bot :=
  {| username := username b; password := password b; course_id := course_id b;
     headers := headers b; cookies := c; _jwt := _jwt b;
     _chapters := _chapters b; _questions := _questions b |}.
Definition set_jwt (j : string) (b : bot) : bot :=
  {| username := username b; password := password b; course_id := course_id b;
     headers := headers b; cookies := cookies b; _jwt := j;
     _chapters := _chapters b; _questions := _questions b |}.
Definition set_chapters (c : list (string * Z)) (b : bot) : bot :=
  {| username := username b; password := password b; course_id := course_id b;
     headers := headers b; cookies := cookies b; _jwt := _jwt b;
     _chapters := c; _questions := _questions b |}.
Definition set_questions (q : list (Z * entry)) (b : bot) : bot :=
  {| username := username b; password := password b; course_id := course_id b;
     headers := headers b; cookies := cookies b; _jwt := _jwt b;
     _chapters := _chapters b; _questions := q |}.

(** ** Library calls *)

(** [len(v)] *)
Definition py_len (v : pyval) : result nat :=
  match v with
  | PStr s => Ok (String.length s)
  | PList l => Ok (length l)
  | PDict d => Ok (length d)
  | _ => Raise TypeError
  end.

(** [v[i]] for an integer [i] within [len(v)]; a dictionary decoded from
    JSON has string keys only. *)
Definition py_getitem (v : pyval) (i : nat) : result pyval :=
  match v with
  | PStr s => from_option (fun c => Ok (PStr c)) (Raise IndexError) (PyStr.chars s !! i)
  | PList l => from_option Ok (Raise IndexError) (l !! i)
  | PDict _ => Raise KeyError
  | _ => Raise TypeError
  end.

(** [random.choice(seq)]: an empty sequence raises [IndexError]; otherwise
    the generator gives an index below [len(seq)]. *)
Definition random_choice (seq : pyval) : M pyval := fun st =>
  match py_len seq with
  | Raise e => (Raise e, st)
  | Ok O => (Raise IndexError, st)
  | Ok (S n) =>
      (py_getitem seq (rng st 0 mod S n)%nat,
       {| self := self st; rng := fun k => rng st (S k); trace := trace st |})
  end.

(** [for s in v] *)
Definition py_iter (v : pyval) : result (list pyval) :=
  match v with
  | PStr s => Ok (PStr <$> PyStr.chars s)
  | PList l => Ok l
  | PDict d => Ok (PStr <$> d.*1)
  | _ => Raise TypeError
  end.

(** [v.split(sep)] *)
Definition py_split (v : pyval) (sep : string) : result (list pyval) :=
  match v with
  | PStr s => Ok (PStr <$> PyStr.split s sep)
  | _ => Raise AttributeError
  end.

(** [v.items()] *)
Definition py_items (v : pyval) : result (list (string * pyval)) :=
  match v with
  | PDict d => Ok d
  | _ => Raise AttributeError
  end.

(** [sorted(items)] on the items of a dictionary: the keys are distinct
    strings, so the comparison of two (key, value) pairs is decided by
    their keys. *)
Definition key_le (a b : string * pyval) : Prop := String.le a.1 b.1.
#[global] Instance key_le_dec : RelDecision key_le.
Proof. intros a b. unfold key_le. apply _. Defined.

(** Strictly ascending keys. *)
Definition key_lt (a b : string * pyval) : Prop := String.le a.1 b.1 ∧ a.1 ≠ b.1.

Definition sorted_items (items : list (string * pyval)) : list (string * pyval) :=
  merge_sort key_le items.

(** ** Endpoints *)

Definition ENDPOINT_csrf : string := "https://app.tophat.com/index_metadata/loginv2/".
Definition ENDPOINT_login : string := "https://app.tophat.com/api/v3/authenticate/".
Definition ENDPOINT_file_tree : string := "https://app.tophat.com/api/v1/tree_data/".
Definition ENDPOINT_question_data (chapter_id : Z) : string :=
  "https://app.tophat.com/api/v3/page/" +:+ pretty chapter_id +:+ "/question/".
Definition ENDPOINT_answer (question_id : Z) : string :=
  "https://app.tophat.com/api/v3/question/" +:+ pretty question_id +:+ "/answer/".

Definition USER_AGENT : string :=
  "Mozilla/5.0 (Macintosh; Intel Mac OS X 10_15_7) AppleWebKit/537.36 (KHTML, like Gecko) Chrome/86.0.4240.75 Safari/537.36".

(** ** class TopHatBot *)

Section TopHatBot.
Context (srv : server).

(** [_load_csrf_cookie]: the request stores the cookies of the response in
    the session; the assertion follows. *)
Definition _load_csrf_cookie : M unit :=
  emit (EvGet ENDPOINT_csrf []) ;;
  b ← get_self;
  put_self (set_cookies (PyDict.update (cookies b) (srv_csrf srv)) b) ;;
  b ← get_self;
  if PyDict.mem "csrftoken" (cookies b) then mret tt else raise AssertionError.

(** property [_csrf_token] *)
Definition _csrf_token : M string :=
  b ← get_self;
  (if PyDict.mem "csrftoken" (cookies b) then mret tt else _load_csrf_cookie) ;;
  b ← get_self;
  from_option mret (raise KeyError) (PyDict.get (cookies b) "csrftoken").

(** [_login] *)
Definition _login : M string :=
  b ← get_self;
  emit (EvPost ENDPOINT_login
          [("username", PStr (username b)); ("password", PStr (password b))]) ;;
  from_option mret (raise KeyError) (srv_login srv (username b) (password b)).

(** [_get_chapters] *)
Definition _get_chapters : M (list (string * Z)) :=
  b ← get_self;
  emit (EvGet ENDPOINT_file_tree
          [("module_id", PStr "unitree"); ("course_id", PInt (course_id b));
           ("limit", PInt 0)]) ;;
  mret (PyDict.of_items (srv_tree srv (course_id b))).

(** [course_id or self.COURSE_ID] *)
Definition or_COURSE_ID (course_id COURSE_ID : option Z) : option Z :=
  match course_id with
  | Some c => if c =? 0 then COURSE_ID else Some c
  | None => COURSE_ID
  end.

(** [__init__], run on the object under construction. *)
Definition __init__ (COURSE_ID : option Z) (user pass : string)
    (cid : option Z) : M unit :=
  c ← from_option mret (raise AssertionError) (or_COURSE_ID cid COURSE_ID);
  b ← get_self;
  put_self (set_credentials user pass c b) ;;
  b ← get_self;
  put_self (set_headers (PyDict.set "user-agent" USER_AGENT (headers b)) b) ;;
  tok ← _csrf_token;
  b ← get_self;
  put_self (set_headers (PyDict.set "x-csrftoken" tok (headers b)) b) ;;
  jwt ← _login;
  b ← get_self;
  put_self (set_jwt jwt b) ;;
  b ← get_self;
  put_self (set_headers
              (PyDict.set "authorization" ("Bearer " +:+ jwt) (headers b)) b) ;;
  chapters ← _get_chapters;
  b ← get_self;
  put_self (set_chapters chapters b) ;;
  b ← get_self;
  put_self (set_questions [] b).

(** [cls(username, password, course_id)]: [__init__] runs on a fresh
    object, and the caller gets the object only when [__init__] returns;
    the generator and the trace are those of the process. *)
Definition new (COURSE_ID : option Z) (user pass : string) (cid : option Z)
    (g : nat → nat) (tr : list event) : result bot * (nat → nat) * list event :=
  match __init__ COURSE_ID user pass cid
          {| self := blank; rng := g; trace := tr |} with
  | (Ok _, st) => (Ok (self st), rng st, trace st)
  | (Raise e, st) => (Raise e, rng st, trace st)
  end.

(** [[part for s in v for part in s.split(sep)]] *)
Fixpoint split_each (sep : string) (l : list pyval) : result (list pyval) :=
  match l with
  | [] => Ok []
  | s :: l' =>
      parts ← py_split s sep;
      rest ← split_each sep l';
      Ok (parts ++ rest)
  end.
Definition split_parts (sep : string) (v : pyval) : result pyval :=
  l ← py_iter v;
  parts ← split_each sep l;
  Ok (PList parts).

(** The [elif] chain on [question["type"]] in the loop of
    [load_question_data]. *)
Definition derive_by_type (q : question) : M pyval :=
  if bool_decide (q_type q = "match") then
    lift (split_parts "|,,| " (q_correct_answers q))
  else if bool_decide (q_type q = "sort") then
    lift (split_parts ", " (q_correct_answers q))
  else if bool_decide (q_type q = "wa") || bool_decide (q_type q = "na") then
    c ← random_choice (q_correct_answers q);
    mret (PList [c])
  else if bool_decide (q_type q = "fitbq") then
    items ← lift (py_items (q_correct_answers q));
    mret (PList ((sorted_items items).*2))
  else if bool_decide (q_type q = "mc") then
    mret (q_correct_answers q)
  else
    emit (EvWarn ("Unrecognized question type: " +:+ q_type q +:+ ".")) ;;
    mret (q_correct_answers q).

(** The answer of one question: the test of [has_correct_answer] comes
    first, the chain on the type after it. *)
Definition derive_answer (q : question) : M pyval :=
  if is_False (q_has_correct_answer q) then
    c ← random_choice (q_choices q);
    mret (PList [c])
  else derive_by_type q.

(** The loop of [load_question_data] over the questions of the response;
    [data] is the local dictionary. *)
Fixpoint load_loop (qs : list question) (data : list (Z * entry))
  : M (list (Z * entry)) :=
  match qs with
  | [] => mret data
  | q :: qs' =>
      b ← get_self;
      if PyDict.mem (q_id q) (_questions b) then load_loop qs' data
      else
        answer ← derive_answer q;
        load_loop qs'
          (PyDict.set (q_id q)
             {| e_question := q_question q; e_answer := answer;
                e_type := q_type q;
                e_has_correct_answer := q_has_correct_answer q |} data)
  end.

(** [load_question_data] *)
Definition load_question_data (chapter_id : Z) : M unit :=
  emit (EvGet (ENDPOINT_question_data chapter_id) []) ;;
  data ← load_loop (srv_question_data srv chapter_id) [];
  b ← get_self;
  put_self (set_questions (PyDict.update (_questions b) data) b).

(** [answer_question] *)
Definition answer_question (question_id : Z) : M (option string) :=
  b ← get_self;
  match PyDict.get (_questions b) question_id with
  | None =>
      emit (EvPrint ("Question ID has not been loaded: " +:+ pretty question_id)) ;;
      mret None
  | Some e =>
      emit (EvPost (ENDPOINT_answer question_id) [("answer", e_answer e)]) ;;
      mret (Some (srv_answer srv question_id (e_answer e)))
  end.
End TopHatBot.

(** ** class Psych210Bot(TopHatBot) *)

(** The value of [valid_prefixes]: a tuple of strings or one string. *)
Inductive prefixes : Type :=
  | PrefixStr (p : string)
  | PrefixTuple (ps : list string).

(** [s.startswith(p)] for such a value. *)
Definition startswith_any (s : string) (p : prefixes) : bool :=
  match p with
  | PrefixStr p => PyStr.startswith s p
  | PrefixTuple ps => existsb (PyStr.startswith s) ps
  end.

Section Psych210Bot.
Context (srv : server).

Definition COURSE_ID : option Z := Some 250265.

Definition Psych210Bot (user pass : string) (cid : option Z) :=
  new srv COURSE_ID user pass cid.

(** property [required_chapters] *)
Definition required_chapters (b : bot) : list (string * Z) :=
  PyDict.of_items
    (filter (fun kv => PyStr.startswith kv.1 "Chapter"
                       && negb (PyStr.contains "OPTIONAL" kv.1) = true)
            (_chapters b)).

(** [tuple(f"Chapter {i}" for i in chapters) or ""] *)
Definition valid_prefixes (chapters : list Z) : prefixes :=
  match (fun i => "Chapter " +:+ pretty i) <$> chapters with
  | [] => PrefixStr ""
  | t => PrefixTuple t
  end.

(** The loop of [_load_chapters] over the items of [required_chapters]. *)
Fixpoint load_chapters_loop (vp : prefixes) (items : list (string * Z))
  : M unit :=
  match items with
  | [] => mret tt
  | (chapter, chapter_id) :: rest =>
      (if startswith_any chapter vp then
         emit (EvWrapPrint "Loading chapter" (PStr chapter)) ;;
         load_question_data srv chapter_id
       else mret tt) ;;
      load_chapters_loop vp rest
  end.

(** [_load_chapters] *)
Definition _load_chapters (chapters : option (list Z)) : M unit :=
  let chapters := default [] chapters in
  let vp := valid_prefixes chapters in
  b ← get_self;
  load_chapters_loop vp (required_chapters b).

(** The display of one question, common to [list_questions] and [run]. *)
Definition show_question (e : entry) : M unit :=
  emit (EvWrapPrint "Question" (PStr (e_question e))) ;;
  if truthy (e_has_correct_answer e)
  then emit (EvWrapPrint "Correct answer" (e_answer e))
  else emit (EvPrint "No correct answer specified. Selecting random response.").

Fixpoint list_loop (items : list (Z * entry)) : M unit :=
  match items with
  | [] => mret tt
  | (_, e) :: rest => show_question e ;; list_loop rest
  end.

(** [list_questions] *)
Definition list_questions (chapters : option (list Z)) : M unit :=
  _load_chapters chapters ;;
  b ← get_self;
  list_loop (_questions b).

Fixpoint run_loop (delay : Q) (items : list (Z * entry)) : M unit :=
  match items with
  | [] => mret tt
  | (question_id, e) :: rest =>
      show_question e ;;
      emit (EvWrapPrint "Submitting answer" (e_answer e)) ;;
      resp ← answer_question srv question_id;
      emit (EvWrapPrint "Received response from server"
              (from_option PStr PNone resp)) ;;
      emit (EvPrint "") ;;
      emit (EvSleep delay) ;;
      run_loop delay rest
  end.

(** [run] *)
Definition run (chapters : option (list Z)) (delay : Q) : M unit :=
  _load_chapters chapters ;;
  b ← get_self;
  run_loop delay (_questions b).
End Psych210Bot.

(** ** main.py *)

(** [main]: [config[section][option]] is the lookup in the parsed
    credentials file, which raises when the section or the option is
    missing; the generator and the trace are those of the process. *)
Definition main (srv : server) (config : string → string → result string)
    (g : nat → nat) (tr : list event) : result unit * (nat → nat) * list event :=
  match config "credentials" "username" with
  | Raise e => (Raise e, g, tr)
  | Ok user =>
      match config "credentials" "password" with
      | Raise e => (Raise e, g, tr)
      | Ok pass =>
          match Psych210Bot srv user pass None g tr with
          | (Raise e, g', tr') => (Raise e, g', tr')
          | (Ok b, g', tr') =>
              let (r, st) :=
                list_questions srv None {| self := b; rng := g'; trace := tr' |} in
              (r, rng st, trace st)
          end
      end
  end.

(** ** Predicates used in the statements *)

(** A computation that leaves the attributes of the object as they are. *)
Definition keeps_self {A} (m : M A) : Prop := ∀ st, self (m st).2 = self st.

(** The state after one more event. *)
Definition after_event (st : state) (e : event) : state :=
  {| self := self st; rng := rng st; trace := trace st ++ [e] |}.

(** The entry stored for a question, given its answer. *)
Definition new_entry (q : question) (answer : pyval) : entry :=
  {| e_question := q_question q; e_answer := answer; e_type := q_type q;
     e_has_correct_answer := q_has_correct_answer q |}.

(** Loading every chapter of [items], in order, each announced by its
    line. *)
Fixpoint load_each (srv : server) (items : list (string * Z)) : M unit :=
  match items with
  | [] => mret tt
  | (chapter, chapter_id) :: rest =>
      (emit (EvWrapPrint "Loading chapter" (PStr chapter)) ;;
       load_question_data srv chapter_id) ;;
      load_each srv rest
  end.

(** [name] starts with "Chapter " followed by one of the numbers. *)
Definition matches_numbers (nums : list Z) (name : string) : bool :=
  existsb (fun i => PyStr.startswith name ("Chapter " +:+ pretty i)) nums.

(** [name] is the name of a required chapter. *)
Definition is_required (name : string) : bool :=
  PyStr.startswith name "Chapter" && negb (PyStr.contains "OPTIONAL" name).

(** The last question of a response that has the id [k]. *)
Fixpoint last_with_id (k : Z) (qs : list question) : option question :=
  match qs with
  | [] => None
  | q :: qs' =>
      match last_with_id k qs' with
      | Some q' => Some q'
      | None => if decide (q_id q = k) then Some q else None
      end
  end.

(** The answers posted in a trace (address and body), and the pauses. *)
Definition posts_of (tr : list event) : list (string * list (string * pyval)) :=
  omap (fun e => match e with EvPost url data => Some (url, data) | _ => None end) tr.
Definition sleeps_of (tr : list event) : list Q :=
  omap (fun e => match e with EvSleep d => Some d | _ => None end) tr.

(** An event that neither submits anything nor pauses. *)
Definition is_quiet (e : event) : Prop :=
  match e with
  | EvPost _ _ | EvSleep _ => False
  | _ => True
  end.

(** A computation that adds to the trace only events that satisfy [P]. *)
Definition emits_only {A} (P : event → Prop) (m : M A) : Prop :=
  ∀ st, ∃ evs, trace (m st).2 = trace st ++ evs ∧ Forall P evs.

(** The object [b'] differs from [b] in its questions at most. *)
Definition same_but_questions (b b' : bot) : Prop :=
  b' = set_questions (_questions b') b.


(** A warning. *)
Definition is_warning (e : event) : Prop :=
  match e with
  | EvWarn _ => True
  | _ => False
  end.

(** [parts] are the parts of [s] between the occurrences of [sep]: joined
    by [sep] they give [s] back, and none of them contains [sep]. *)
Definition parts_of (sep s : string) (parts : list string) : Prop :=
  PyStr.join sep parts = s ∧ ∀ p, p ∈ parts → PyStr.contains sep p = false.

(** From [st] to [st1] the object has changed in its questions at most, has
    kept every entry it had, and has kept its keys distinct. *)
Definition grows (st st1 : state) : Prop :=
  same_but_questions (self st) (self st1)
  ∧ (∀ k e, PyDict.get (_questions (self st)) k = Some e →
            PyDict.get (_questions (self st1)) k = Some e)
  ∧ (NoDup (PyDict.keys (_questions (self st))) →
     NoDup (PyDict.keys (_questions (self st1)))).


(** An event that submits no answer and does not pause: the only post
    allowed is the login. *)
Definition submits_nothing (e : event) : Prop :=
  match e with
  | EvPost url _ => url = ENDPOINT_login
  | EvSleep _ => False
  | _ => True
  end.

(** A credentials file with the given user name and password. *)
Definition credentials (user pass : string) (section option : string)
  : result string :=
  if bool_decide (section = "credentials") then
    if bool_decide (option = "username") then Ok user
    else if bool_decide (option = "password") then Ok pass
    else Raise KeyError
  else Raise KeyError.

(** ** Sample data *)

Module Sample.
Definition st0 : state :=
  {| self := blank; rng := fun _ => 0%nat; trace := [] |}.

Definition mk_question (id : Z) (ty : string) (hca choices ca : pyval)
  : question :=
  {| q_id := id; q_question := "Q"; q_type := ty;
     q_has_correct_answer := hca; q_choices := choices;
     q_correct_answers := ca |}.

Definition q_match : question :=
  mk_question 1 "match" (PBool true) (PList [])
    (PList [PStr "a|,,| b"; PStr "c|,,| d"]).
Definition q_sort : question :=
  mk_question 2 "sort" (PBool true) (PList [])
    (PList [PStr "x, y"; PStr "z"]).
Definition q_fitbq : question :=
  mk_question 3 "fitbq" (PBool true) (PList [])
    (PDict [("2", PStr "foo"); ("1", PStr "bar")]).
Definition q_survey : question :=
  mk_question 4 "mc" (PBool false) (PList [PStr "A"; PStr "B"; PStr "C"])
    (PList []).
Definition q_no_choices : question :=
  mk_question 5 "wa" (PBool false) (PList []) (PList []).
Definition q_mc (hca : pyval) : question :=
  mk_question 6 "mc" hca (PList [PStr "A"; PStr "B"]) (PList [PStr "B"]).

Definition srv0 : server :=
  {| srv_csrf := [("csrftoken", "t0k3n")];
     srv_login := fun _ _ => Some "jwt";
     srv_tree := fun _ =>
       [("Chapter 3: Intro", 31); ("Chapter 3 OPTIONAL", 32);
        ("Appendix", 33); ("Chapter 10: Review", 34)];
     srv_question_data := fun chapter_id =>
       if bool_decide (chapter_id = 31) then [q_match; q_survey; q_match]
       else [q_sort; q_fitbq];
     srv_answer := fun _ _ => "{}" |}.

(** A platform whose bootstrap response sets no CSRF cookie, and one whose
    login response has no token header. *)
Definition srv_no_csrf : server :=
  {| srv_csrf := [("session", "s")]; srv_login := srv_login srv0;
     srv_tree := srv_tree srv0; srv_question_data := srv_question_data srv0;
     srv_answer := srv_answer srv0 |}.
Definition srv_no_jwt : server :=
  {| srv_csrf := srv_csrf srv0; srv_login := fun _ _ => None;
     srv_tree := srv_tree srv0; srv_question_data := srv_question_data srv0;
     srv_answer := srv_answer srv0 |}.

(** An object with the chapters of the specification's example. *)
Definition bot0 : bot :=
  set_chapters
    [("Chapter 3: Intro", 31); ("Chapter 3 OPTIONAL", 32); ("Appendix", 33);
     ("Chapter 10: Review", 34)] blank.

(** The state after loading chapter 31 of [srv0] into a fresh object. *)
Definition st_loaded : state := (load_question_data srv0 31 st0).2.
End Sample.

(** Further sample platforms: one whose chapter has a question that cannot
    be answered after one that can, and one whose chapter has the same id
    twice. *)
Module Sample2.
Definition srv_bad : server :=
  {| srv_csrf := srv_csrf Sample.srv0; srv_login := srv_login Sample.srv0;
     srv_tree := srv_tree Sample.srv0;
     srv_question_data := fun _ => [Sample.q_match; Sample.q_no_choices];
     srv_answer := srv_answer Sample.srv0 |}.

Definition q_first : question :=
  {| q_id := 20; q_question := "first"; q_type := "mc";
     q_has_correct_answer := PBool true; q_choices := PList [];
     q_correct_answers := PList [PStr "A"] |}.
Definition q_second : question :=
  {| q_id := 20; q_question := "second"; q_type := "mc";
     q_has_correct_answer := PBool true; q_choices := PList [];
     q_correct_answers := PList [PStr "B"] |}.
Definition srv_dup : server :=
  {| srv_csrf := srv_csrf Sample.srv0; srv_login := srv_login Sample.srv0;
     srv_tree := srv_tree Sample.srv0;
     srv_question_data := fun _ => [q_first; Sample.q_sort; q_second];
     srv_answer := srv_answer Sample.srv0 |}.

(** A state whose object has the chapters of [Sample.bot0]. *)
Definition st_chapters : state :=
  {| self := Sample.bot0; rng := fun _ => 0%nat; trace := [] |}.
End Sample2.

(** * Properties *)

(** ** Strings *)

Module PyStrFacts.
Import PyStr.

Lemma app_cons c s t : String c s +:+ t = String c (s +:+ t).
Proof. reflexivity. Qed.
Lemma app_nil_r s : s +:+ "" = s.
Proof. induction s as [|c s IH]; [done|]. by rewrite app_cons, IH. Qed.
Lemma app_assoc (s t u : string) : (s +:+ t) +:+ u = s +:+ t +:+ u.
Proof. induction s as [|c s IH]; [done|]. by rewrite !app_cons, IH. Qed.
Lemma length_app s t : String.length (s +:+ t) = (String.length s + String.length t)%nat.
Proof. induction s as [|c s IH]; [done|]. rewrite app_cons. simpl. by rewrite IH. Qed.

Lemma prefix_spec p s : String.prefix p s = true ↔ ∃ r, s = p +:+ r.
Proof.
  revert s. induction p as [|c p IH]; intros [|d s]; simpl.
  - split; [|done]. intros _. by exists "".
  - split; [|done]. intros _. by exists (String d s).
  - split; [done|]. intros [r Hr]. by rewrite app_cons in Hr.
  - destruct (Ascii.ascii_dec c d) as [->|Hne].
    + rewrite IH. split; intros [r Hr]; exists r.
      * by rewrite app_cons, Hr.
      * rewrite app_cons in Hr. congruence.
    + split; [done|]. intros [r Hr]. rewrite app_cons in Hr. congruence.
Qed.

Lemma startswith_spec s p : startswith s p = true ↔ ∃ r, s = p +:+ r.
Proof. apply prefix_spec. Qed.

Lemma startswith_empty s : startswith s "" = true.
Proof. by destruct s. Qed.

Lemma contains_spec sub s : contains sub s = true ↔ ∃ a b, s = a +:+ sub +:+ b.
Proof.
  induction s as [|c s IH]; cbn [contains].
  - rewrite orb_false_r, prefix_spec. split.
    + intros [r Hr]. by exists "", r.
    + intros [a [b Hab]]. destruct a; [by exists b|]. by rewrite app_cons in Hab.
  - rewrite orb_true_iff, prefix_spec, IH. split.
    + intros [[r Hr]|[a [b Hab]]].
      * by exists "", r.
      * exists (String c a), b. by rewrite app_cons, Hab.
    + intros [a [b Hab]]. destruct a as [|d a].
      * left. by exists b.
      * right. exists a, b. rewrite app_cons in Hab. congruence.
Qed.

Lemma rev_app_app s t u : String.rev_app s t +:+ u = String.rev_app s (t +:+ u).
Proof. revert t. induction s as [|c s IH]; intros t; simpl; [done|]. by rewrite IH. Qed.
Lemma rev_cons c s : String.rev (String c s) = String.rev s +:+ String c "".
Proof. unfold String.rev. simpl. by rewrite rev_app_app. Qed.

Lemma split_go_skip sep p cur s :
  split_go sep (String.length p) cur (p +:+ s) = split_go sep 0 cur s.
Proof. induction p as [|c p IH]; [done|]. by rewrite app_cons. Qed.

Lemma split_go_match sep cur r :
  sep ≠ "" →
  split_go sep 0 cur (sep +:+ r) = String.rev cur :: split_go sep 0 "" r.
Proof.
  intros Hsep. destruct sep as [|c sep']; [done|].
  rewrite app_cons. cbn [split_go].
  assert (String.prefix (String c sep') (String c (sep' +:+ r)) = true) as ->.
  { apply prefix_spec. by exists r. }
  f_equal. cbn [String.length]. rewrite Nat.sub_1_r. cbn [Nat.pred].
  apply split_go_skip.
Qed.

Section split.
Context (sep : string) (Hsep : sep ≠ "").

Lemma split_go_nonempty k cur s : split_go sep k cur s ≠ [].
Proof.
  revert k cur. induction s as [|c s IH]; intros k cur; simpl; [done|].
  destruct k; [|done]. by case_match.
Qed.

Lemma join_cons p ps : ps ≠ [] → join sep (p :: ps) = p +:+ sep +:+ join sep ps.
Proof. by destruct ps. Qed.

Lemma join_split_go n : ∀ s cur, String.length s = n →
  join sep (split_go sep 0 cur s) = String.rev cur +:+ s.
Proof using Hsep.
  induction (lt_wf n) as [n _ IH]. intros s cur Hn.
  destruct s as [|c s'] eqn:Es.
  { simpl. by rewrite app_nil_r. }
  destruct (String.prefix sep (String c s')) eqn:Hp.
  - apply prefix_spec in Hp as [r Hr]. rewrite Hr, split_go_match by done.
    rewrite join_cons by apply split_go_nonempty.
    rewrite (IH (String.length r)) with (cur := "") (s := r); [done| |done].
    rewrite <-Hn, Hr, length_app. destruct sep; [done|simpl; lia].
  - cbn [split_go]. rewrite Hp.
    rewrite (IH (String.length s')) by (try done; simpl in Hn; lia).
    by rewrite rev_cons, app_assoc.
Qed.

Lemma join_split s : join sep (split s sep) = s.
Proof using Hsep. unfold split. by rewrite (join_split_go _ s "" eq_refl). Qed.

Lemma app_snoc_inv t u w c :
  t +:+ u = w +:+ String c "" → u ≠ "" →
  ∃ u', u = u' +:+ String c "" ∧ w = t +:+ u'.
Proof.
  revert w. induction t as [|d t IH]; intros w Heq Hu.
  - exists w. split; [exact Heq|done].
  - destruct w as [|e w].
    + rewrite app_cons in Heq. injection Heq as _ Heq.
      destruct t, u; done.
    + rewrite !app_cons in Heq. injection Heq as -> Heq.
      destruct (IH w Heq Hu) as (u' & -> & ->). by exists u'.
Qed.

Lemma no_occ_contains cur s :
  no_occ sep cur s → (s = "" ∨ String.prefix sep s = true) →
  contains sep (String.rev cur) = false.
Proof using Hsep.
  intros Hno Hs. apply not_true_is_false. intros Hc.
  apply contains_spec in Hc as (a & b & Hab).
  specialize (Hno a (sep +:+ b) Hab).
  assert (String.prefix sep ((sep +:+ b) +:+ s) = true) as Hp.
  { apply prefix_spec. exists (b +:+ s). by rewrite app_assoc. }
  rewrite Hno in Hp; [done|]. by destruct sep.
Qed.

Lemma split_go_no_sep n : ∀ s cur, String.length s = n → no_occ sep cur s →
  ∀ p, p ∈ split_go sep 0 cur s → contains sep p = false.
Proof using Hsep.
  induction (lt_wf n) as [n _ IH]. intros s cur Hn Hno p Hp.
  destruct s as [|c s'] eqn:Es.
  { simpl in Hp. apply list_elem_of_singleton in Hp as ->.
    apply (no_occ_contains _ ""); auto. }
  destruct (String.prefix sep (String c s')) eqn:Hpre.
  - pose proof Hpre as Hpre'.
    apply prefix_spec in Hpre' as [r Hr].
    rewrite Hr, split_go_match in Hp by done.
    apply elem_of_cons in Hp as [->|Hp].
    + apply (no_occ_contains _ (String c s')); auto.
    + apply (IH (String.length r)) with (s := r) (cur := ""); [|done| |done].
      * rewrite <-Hn, Hr, length_app. destruct sep; [done|simpl; lia].
      * intros t u Htu Hu. destruct t, u; done.
  - cbn [split_go] in Hp. rewrite Hpre in Hp.
    apply (IH (String.length s')) with (s := s') (cur := String c cur);
      [simpl in Hn; lia|done| |done].
    intros t u Htu Hu. rewrite rev_cons in Htu.
    symmetry in Htu. apply app_snoc_inv in Htu as (u' & -> & Hcur); [|done].
    rewrite app_assoc, app_cons. change ("" +:+ s') with s'.
    destruct u' as [|d u']; [done|].
    apply (Hno t (String d u')); done.
Qed.

Lemma split_no_sep s p : p ∈ split s sep → contains sep p = false.
Proof using Hsep.
  apply (split_go_no_sep _ s "" eq_refl).
  intros t u Htu Hu. destruct t, u; done.
Qed.
End split.
End PyStrFacts.

(** ** Dictionaries *)

Module PyDictFacts.
Section facts.
Context {K V : Type} `{EqDecision K}.
Implicit Types (d o : list (K * V)) (k : K) (v : V).
Import PyDict.

Lemma get_None d k : get d k = None ↔ k ∉ keys d.
Proof.
  unfold keys. induction d as [|[k' v'] d IH]; simpl.
  - split; [|done]. intros _. apply not_elem_of_nil.
  - rewrite not_elem_of_cons. case_decide as Hk.
    + split; [done|]. intros [Hne _]. by destruct Hne.
    + rewrite IH. split; [by split; [congruence|]|by intros [_ ?]].
Qed.

Lemma mem_true d k : mem k d = true ↔ k ∈ keys d.
Proof.
  unfold mem. pose proof (get_None d k) as Hn.
  destruct (get d k).
  - split; [|done]. intros _. destruct (decide (k ∈ keys d)); [done|].
    by apply Hn in n.
  - split; [done|]. intros Hk. by apply Hn in Hk.
Qed.

Lemma mem_false d k : mem k d = false ↔ k ∉ keys d.
Proof. rewrite <-mem_true. by destruct (mem k d). Qed.

Lemma get_set d k v k' :
  get (set k v d) k' = if decide (k = k') then Some v else get d k'.
Proof.
  induction d as [|[k0 v0] d IH]; simpl.
  - done.
  - destruct (decide (k0 = k)) as [->|Hne]; simpl.
    + by destruct (decide (k = k')).
    + rewrite IH. destruct (decide (k0 = k')) as [->|]; [|done].
      by rewrite decide_False by congruence.
Qed.

Lemma set_fresh d k v : k ∉ keys d → set k v d = d ++ [(k, v)].
Proof.
  unfold keys. induction d as [|[k0 v0] d IH]; simpl; [done|].
  rewrite not_elem_of_cons. intros [Hne Hd].
  case_decide; [congruence|]. by rewrite IH.
Qed.

Lemma keys_set_old d k v : k ∈ keys d → keys (set k v d) = keys d.
Proof.
  unfold keys. induction d as [|[k0 v0] d IH]; simpl.
  - by intros ?%elem_of_nil.
  - case_decide as Hk; [by subst|].
    intros [?|?]%elem_of_cons; [congruence|]. simpl. f_equal. by apply IH.
Qed.

Lemma elem_of_keys_set d k v k' : k' ∈ keys (set k v d) ↔ k' = k ∨ k' ∈ keys d.
Proof.
  destruct (decide (k ∈ keys d)) as [Hin|Hout].
  - rewrite keys_set_old by done. split; [tauto|]. by intros [->|?].
  - rewrite set_fresh by done. unfold keys.
    rewrite fmap_app, elem_of_app. simpl. rewrite list_elem_of_singleton.
    tauto.
Qed.

Lemma NoDup_keys_set d k v : NoDup (keys d) → NoDup (keys (set k v d)).
Proof.
  intros Hnd. destruct (decide (k ∈ keys d)) as [Hin|Hout].
  - by rewrite keys_set_old.
  - rewrite set_fresh by done. unfold keys. rewrite fmap_app. simpl.
    apply NoDup_app. split_and!; [done| |apply NoDup_singleton].
    intros x Hx ->%list_elem_of_singleton. done.
Qed.

Lemma elem_of_keys_update o : ∀ d k,
  k ∈ keys (update d o) ↔ k ∈ keys d ∨ k ∈ keys o.
Proof.
  unfold update. induction o as [|[k0 v0] o IH]; intros d k; simpl.
  - change (keys (@nil (K * V))) with (@nil K). rewrite elem_of_nil. tauto.
  - rewrite IH, elem_of_keys_set.
    change (keys ((k0, v0) :: o)) with (k0 :: keys o).
    rewrite elem_of_cons. tauto.
Qed.

Lemma NoDup_keys_update o : ∀ d, NoDup (keys d) → NoDup (keys (update d o)).
Proof.
  unfold update. induction o as [|[k0 v0] o IH]; intros d Hd; simpl; [done|].
  apply IH. by apply NoDup_keys_set.
Qed.

Lemma get_update_other o : ∀ d k, k ∉ keys o → get (update d o) k = get d k.
Proof.
  unfold update, keys. induction o as [|[k0 v0] o IH]; intros d k; simpl; [done|].
  rewrite not_elem_of_cons. intros [Hne Ho].
  rewrite IH, get_set by done. by case_decide.
Qed.

Lemma update_fresh o : ∀ d, NoDup (keys (d ++ o)) → update d o = d ++ o.
Proof.
  unfold update. induction o as [|[k0 v0] o IH]; intros d Hnd; simpl.
  - by rewrite app_nil_r.
  - unfold keys in Hnd. rewrite fmap_app in Hnd. simpl in Hnd.
    rewrite set_fresh.
    + rewrite IH; [by rewrite <-app_assoc|].
      unfold keys. rewrite <-app_assoc, fmap_app. done.
    + apply NoDup_app in Hnd as (_ & Hdis & _).
      intros Hin. apply (Hdis _ Hin). by left.
Qed.

Lemma of_items_NoDup o : NoDup (keys o) → of_items o = o.
Proof. intros Hnd. unfold of_items. by rewrite update_fresh. Qed.


(** In a dictionary, looking a key up and finding the pair among the items
    are the same. *)
Lemma get_Some_elem_of d k v : NoDup (keys d) → get d k = Some v ↔ (k, v) ∈ d.
Proof.
  unfold keys. induction d as [|[k0 v0] d IH]; simpl; intros Hnd.
  - split; [done|]. by intros ?%elem_of_nil.
  - apply NoDup_cons in Hnd as [Hk0 Hnd]. rewrite elem_of_cons.
    case_decide; subst.
    + split; [intros [= ->]; by left|].
      intros [[= ->]|Hin]; [done|]. destruct Hk0.
      apply list_elem_of_fmap. by exists (k, v).
    + rewrite IH by done. split; [tauto|].
      intros [[= ? ?]|?]; [congruence|done].
Qed.
End facts.
End PyDictFacts.

(** ** Answer derivation *)

Lemma is_False_spec v : is_False v = true ↔ v = PBool false.
Proof. destruct v as [|[]| | | |]; simpl; split; congruence. Qed.

Lemma is_False_ne v : v ≠ PBool false → is_False v = false.
Proof.
  intros Hv. destruct (is_False v) eqn:E; [|done].
  by apply is_False_spec in E.
Qed.

Lemma split_each_strings sep (ss : list string) :
  split_each sep (PStr <$> ss) =
  Ok (PStr <$> flat_map (fun s => PyStr.split s sep) ss).
Proof.
  induction ss as [|s ss IH]; [done|].
  cbn [fmap list_fmap split_each flat_map py_split]. fold (fmap (M:=list) PStr ss).
  rewrite IH. cbn. by rewrite fmap_app.
Qed.

Lemma split_parts_strings sep (ss : list string) :
  split_parts sep (PList (PStr <$> ss)) =
  Ok (PList (PStr <$> flat_map (fun s => PyStr.split s sep) ss)).
Proof. unfold split_parts. cbn. by rewrite split_each_strings. Qed.

(** C2: for a question with a known correct answer and type "match", the
    derived answer is the concatenation, in the order of the correct-answer
    strings, of the parts of each string split on the delimiter "|,,| "; for
    the correct answers "a|,,| b" and "c|,,| d" it is a, b, c, d. *)
Theorem C2_match_answer :
  (∀ (q : question) (ss : list string) (st : state),
      q_has_correct_answer q ≠ PBool false →
      q_type q = "match" →
      q_correct_answers q = PList (PStr <$> ss) →
      derive_answer q st =
      (Ok (PList (PStr <$> flat_map (fun s => PyStr.split s "|,,| ") ss)), st))
  ∧ (∀ st, derive_answer Sample.q_match st =
           (Ok (PList [PStr "a"; PStr "b"; PStr "c"; PStr "d"]), st)).
Proof.
  split; [|done].
  intros q ss st Hhca Hty Hca. unfold derive_answer, derive_by_type.
  rewrite is_False_ne, Hty, Hca by done. cbn [bool_decide decide_rel].
  rewrite bool_decide_eq_true_2 by done.
  unfold lift. by rewrite split_parts_strings.
Qed.

Lemma C2_match_answer_witness :
  q_has_correct_answer Sample.q_match ≠ PBool false
  ∧ derive_answer Sample.q_match Sample.st0 =
    (Ok (PList [PStr "a"; PStr "b"; PStr "c"; PStr "d"]), Sample.st0).
Proof.
  split; [discriminate|].
  exact (proj1 C2_match_answer Sample.q_match ["a|,,| b"; "c|,,| d"] Sample.st0
           ltac:(discriminate) eq_refl eq_refl).
Defined.

(** C3: for a question with a known correct answer and type "sort", the
    derived answer is the concatenation, in the order of the correct-answer
    strings, of the parts of each string split on ", "; for the correct
    answers "x, y" and "z" it is x, y, z. *)
Theorem C3_sort_answer :
  (∀ (q : question) (ss : list string) (st : state),
      q_has_correct_answer q ≠ PBool false →
      q_type q = "sort" →
      q_correct_answers q = PList (PStr <$> ss) →
      derive_answer q st =
      (Ok (PList (PStr <$> flat_map (fun s => PyStr.split s ", ") ss)), st))
  ∧ (∀ st, derive_answer Sample.q_sort st =
           (Ok (PList [PStr "x"; PStr "y"; PStr "z"]), st)).
Proof.
  split; [|done].
  intros q ss st Hhca Hty Hca. unfold derive_answer, derive_by_type.
  rewrite is_False_ne, Hty, Hca by done.
  rewrite bool_decide_eq_false_2 by done.
  rewrite bool_decide_eq_true_2 by done.
  unfold lift. by rewrite split_parts_strings.
Qed.

Lemma C3_sort_answer_witness :
  q_has_correct_answer Sample.q_sort ≠ PBool false
  ∧ derive_answer Sample.q_sort Sample.st0 =
    (Ok (PList [PStr "x"; PStr "y"; PStr "z"]), Sample.st0).
Proof.
  split; [discriminate|].
  exact (proj1 C3_sort_answer Sample.q_sort ["x, y"; "z"] Sample.st0
           ltac:(discriminate) eq_refl eq_refl).
Defined.

#[local] Instance key_le_total : Total key_le.
Proof. intros a b. unfold key_le. apply (total String.le). Qed.
#[local] Instance key_le_trans : Transitive key_le.
Proof. intros a b c. unfold key_le. apply (transitivity (R:=String.le)). Qed.

Lemma StronglySorted_key_lt (l : list (string * pyval)) :
  StronglySorted key_le l → NoDup l.*1 → StronglySorted key_lt l.
Proof.
  induction 1 as [|a l Hl IH Ha]; intros Hnd; [constructor|].
  cbn in Hnd. apply NoDup_cons in Hnd as [Hal Hnd].
  constructor; [by apply IH|].
  apply Forall_forall. intros b Hb. split.
  - by apply (proj1 (Forall_forall _ _) Ha).
  - intros Heq. apply Hal. rewrite Heq. apply list_elem_of_fmap. by exists b.
Qed.

(** [sorted] of the items of a dictionary: the same items, keys strictly
    ascending. *)
Lemma sorted_items_spec (d : list (string * pyval)) :
  NoDup d.*1 → sorted_items d ≡ₚ d ∧ StronglySorted key_lt (sorted_items d).
Proof.
  intros Hnd. unfold sorted_items.
  pose proof (merge_sort_Permutation key_le d) as Hp.
  split; [done|].
  apply StronglySorted_key_lt.
  - apply Sorted_StronglySorted; [apply _|]. apply Sorted_merge_sort, _.
  - by rewrite Hp.
Qed.

(** C4: for a question with a known correct answer and type "fitbq" whose
    correct answers are a mapping from blank key to value, the derived
    answer is the sequence of the values of the mapping by ascending key;
    for the mapping 2 -> foo, 1 -> bar it is bar, foo. *)
Theorem C4_fitbq_answer :
  (∀ (q : question) (d : list (string * pyval)) (st : state),
      q_has_correct_answer q ≠ PBool false →
      q_type q = "fitbq" →
      q_correct_answers q = PDict d →
      NoDup (PyDict.keys d) →
      ∃ sorted : list (string * pyval),
        derive_answer q st = (Ok (PList sorted.*2), st)
        ∧ sorted ≡ₚ d
        ∧ StronglySorted key_lt sorted)
  ∧ (∀ st, derive_answer Sample.q_fitbq st =
           (Ok (PList [PStr "bar"; PStr "foo"]), st)).
Proof.
  split; [|done].
  intros q d st Hhca Hty Hca Hnd. exists (sorted_items d).
  split; [|by apply sorted_items_spec].
  unfold derive_answer, derive_by_type.
  rewrite is_False_ne, Hty, Hca by done.
  by repeat (rewrite bool_decide_eq_false_2 by done).
Qed.

Lemma C4_fitbq_answer_witness :
  NoDup (PyDict.keys [("2", PStr "foo"); ("1", PStr "bar")])
  ∧ ∃ sorted : list (string * pyval),
      derive_answer Sample.q_fitbq Sample.st0 = (Ok (PList sorted.*2), Sample.st0)
      ∧ sorted ≡ₚ [("2", PStr "foo"); ("1", PStr "bar")]
      ∧ StronglySorted key_lt sorted.
Proof.
  assert (NoDup (PyDict.keys [("2", PStr "foo"); ("1", PStr "bar")])) as Hnd.
  { apply (bool_decide_unpack _). vm_compute. exact I. }
  split; [exact Hnd|].
  exact (proj1 C4_fitbq_answer Sample.q_fitbq _ Sample.st0
           ltac:(discriminate) eq_refl eq_refl Hnd).
Defined.

(** [random.choice] on a non-empty list gives one of its elements and
    consumes one output of the generator. *)
Lemma random_choice_list (cs : list pyval) (st : state) :
  cs ≠ [] →
  ∃ c, c ∈ cs ∧
    random_choice (PList cs) st =
    (Ok c, {| self := self st; rng := fun k => rng st (S k); trace := trace st |}).
Proof.
  intros Hcs. destruct cs as [|c0 cs]; [done|].
  unfold random_choice. cbn [py_len length py_getitem].
  destruct (lookup_lt_is_Some_2 (c0 :: cs) (rng st 0 mod S (length cs))%nat)
    as [c Hc].
  { cbn [length]. apply Nat.mod_upper_bound. lia. }
  exists c. split; [by eapply list_elem_of_lookup_2|].
  by rewrite Hc.
Qed.

(** C5 (amended): for a question whose [has_correct_answer] is false and
    whose offered choices are a non-empty list, whatever its declared type,
    the derived answer is a one-element sequence whose element is one of the
    choices. *)
Theorem C5_no_correct_answer (q : question) (cs : list pyval) (st : state) :
  q_has_correct_answer q = PBool false →
  q_choices q = PList cs →
  cs ≠ [] →
  ∃ c, c ∈ cs ∧
    derive_answer q st =
    (Ok (PList [c]),
     {| self := self st; rng := fun k => rng st (S k); trace := trace st |}).
Proof.
  intros Hhca Hch Hcs. unfold derive_answer. rewrite Hhca, Hch. cbn [is_False].
  destruct (random_choice_list cs st Hcs) as (c & Hin & Hc).
  exists c. split; [done|].
  unfold mbind, M_bind. by rewrite Hc.
Qed.

Lemma C5_no_correct_answer_witness :
  ∃ c, c ∈ [PStr "A"; PStr "B"; PStr "C"] ∧
    derive_answer Sample.q_survey Sample.st0 =
    (Ok (PList [c]),
     {| self := self Sample.st0; rng := fun k => rng Sample.st0 (S k);
        trace := trace Sample.st0 |}).
Proof.
  exact (C5_no_correct_answer Sample.q_survey _ Sample.st0 eq_refl eq_refl
           ltac:(discriminate)).
Defined.

(** With no choice on offer there is nothing to pick: [random.choice]
    raises [IndexError] and no answer is derived. *)
Lemma C5_counterexample :
  q_has_correct_answer Sample.q_no_choices = PBool false
  ∧ derive_answer Sample.q_no_choices Sample.st0 = (Raise IndexError, Sample.st0)
  ∧ ¬ ∃ c, (derive_answer Sample.q_no_choices Sample.st0).1 = Ok (PList [c]).
Proof.
  split_and!; [done|done|]. intros [c Hc]. discriminate Hc.
Qed.

(** C10: the random-choice branch is taken only when [has_correct_answer]
    is the boolean false itself; for any other value, [None] and [0]
    included, the derivation is the dispatch on the declared type. *)
Theorem C10_is_False_only :
  (∀ v, is_False v = true ↔ v = PBool false)
  ∧ (∀ q, q_has_correct_answer q = PBool false →
          derive_answer q = (c ← random_choice (q_choices q); mret (PList [c])))
  ∧ (∀ q, q_has_correct_answer q ≠ PBool false →
          derive_answer q = derive_by_type q)
  ∧ (∀ st, derive_answer (Sample.q_mc PNone) st = (Ok (PList [PStr "B"]), st))
  ∧ (∀ st, derive_answer (Sample.q_mc (PInt 0)) st = (Ok (PList [PStr "B"]), st)).
Proof.
  split_and!; [apply is_False_spec| | |done|done].
  - intros q Hq. unfold derive_answer. by rewrite Hq.
  - intros q Hq. unfold derive_answer. by rewrite is_False_ne.
Qed.

Lemma C10_is_False_only_witness :
  q_has_correct_answer (Sample.q_mc PNone) ≠ PBool false
  ∧ derive_answer (Sample.q_mc PNone) = derive_by_type (Sample.q_mc PNone).
Proof.
  split; [discriminate|].
  exact (proj1 (proj2 (proj2 C10_is_False_only)) (Sample.q_mc PNone)
           ltac:(discriminate)).
Defined.

(** ** Loading questions *)

Section load.
Context (srv : server).
Import PyDict PyDictFacts.

Lemma keeps_self_ret {A} (a : A) : keeps_self (mret a).
Proof. by intros st. Qed.
Lemma keeps_self_lift {A} (r : result A) : keeps_self (lift r).
Proof. by intros st. Qed.
Lemma keeps_self_emit e : keeps_self (emit e).
Proof. by intros st. Qed.
Lemma keeps_self_bind {A B} (m : M A) (f : A → M B) :
  keeps_self m → (∀ a, keeps_self (f a)) → keeps_self (m ≫= f).
Proof.
  intros Hm Hf st. unfold mbind, M_bind. specialize (Hm st).
  destruct (m st) as [[a|e] st1]; simpl in *; [|done].
  by rewrite Hf.
Qed.
Lemma keeps_self_random_choice seq : keeps_self (random_choice seq).
Proof.
  intros st. unfold random_choice. destruct (py_len seq) as [[|n]|e]; done.
Qed.

Lemma keeps_self_derive_by_type q : keeps_self (derive_by_type q).
Proof.
  unfold derive_by_type.
  repeat case_match;
    repeat first [apply keeps_self_bind; [|intros ?] | apply keeps_self_ret
                 | apply keeps_self_lift | apply keeps_self_emit
                 | apply keeps_self_random_choice].
Qed.

Lemma keeps_self_derive_answer q : keeps_self (derive_answer q).
Proof.
  unfold derive_answer. case_match; [|apply keeps_self_derive_by_type].
  apply keeps_self_bind; [apply keeps_self_random_choice|].
  intros c. apply keeps_self_ret.
Qed.

Lemma load_loop_cons q qs data st :
  load_loop (q :: qs) data st =
  if mem (q_id q) (_questions (self st)) then load_loop qs data st
  else match derive_answer q st with
       | (Ok answer, st1) => load_loop qs (set (q_id q) (new_entry q answer) data) st1
       | (Raise e, st1) => (Raise e, st1)
       end.
Proof.
  cbn [load_loop]. unfold mbind at 1, M_bind at 1, get_self.
  by destruct (mem (q_id q) (_questions (self st))).
Qed.

Lemma keeps_self_load_loop qs : ∀ data, keeps_self (load_loop qs data).
Proof.
  induction qs as [|q qs IH]; intros data st; [done|].
  rewrite load_loop_cons. case_match; [apply IH|].
  pose proof (keeps_self_derive_answer q st) as Hq.
  destruct (derive_answer q st) as [[a|e] st1]; simpl in *; [|done].
  by rewrite IH.
Qed.

(** The keys of the local dictionary after the loop: those it had, and the
    ids of the response that the object does not know yet. *)
Lemma load_loop_keys qs : ∀ data st data' st',
  load_loop qs data st = (Ok data', st') →
  ∀ k, k ∈ keys data' ↔
       k ∈ keys data ∨ (k ∈ q_id <$> qs ∧ k ∉ keys (_questions (self st))).
Proof.
  induction qs as [|q qs IH]; intros data st data' st' Hrun k.
  - injection Hrun as <- <-. rewrite fmap_nil, elem_of_nil. tauto.
  - rewrite load_loop_cons in Hrun. rewrite fmap_cons, elem_of_cons.
    destruct (mem (q_id q) (_questions (self st))) eqn:Hmem.
    + apply mem_true in Hmem. rewrite (IH _ _ _ _ Hrun).
      split; [tauto|]. intros [?|[[->|?] ?]]; tauto.
    + apply mem_false in Hmem.
      pose proof (keeps_self_derive_answer q st) as Hq.
      destruct (derive_answer q st) as [[a|e] st1]; simpl in *; [|done].
      rewrite (IH _ _ _ _ Hrun), elem_of_keys_set, Hq.
      split; [intros [[->|?]|?]; tauto|]. intros [?|[[->|?] ?]]; tauto.
Qed.

(** When the object knows every id of the response, the loop does
    nothing. *)
Lemma load_loop_known qs : ∀ data st,
  (∀ k, k ∈ q_id <$> qs → k ∈ keys (_questions (self st))) →
  load_loop qs data st = (Ok data, st).
Proof.
  induction qs as [|q qs IH]; intros data st Hall; [done|].
  rewrite load_loop_cons.
  rewrite (proj2 (mem_true _ _)) by (apply Hall; rewrite fmap_cons; by left).
  apply IH. intros k Hk. apply Hall. rewrite fmap_cons. by right.
Qed.

Lemma load_question_data_unfold chapter_id st :
  load_question_data srv chapter_id st =
  match load_loop (srv_question_data srv chapter_id) []
          (after_event st (EvGet (ENDPOINT_question_data chapter_id) [])) with
  | (Ok data, st1) =>
      (Ok tt,
       {| self := set_questions (update (_questions (self st1)) data) (self st1);
          rng := rng st1; trace := trace st1 |})
  | (Raise e, st1) => (Raise e, st1)
  end.
Proof.
  unfold load_question_data, mbind, M_bind, emit, get_self, put_self, after_event.
  by destruct (load_loop _ _ _) as [[data|e] st1].
Qed.

End load.

Section load_twice.
Context (srv : server).
Import PyDict PyDictFacts.

Lemma load_question_data_old chapter_id st r1 st1 k e :
  load_question_data srv chapter_id st = (r1, st1) →
  get (_questions (self st)) k = Some e →
  get (_questions (self st1)) k = Some e.
Proof.
  rewrite load_question_data_unfold. intros Hrun Hk.
  pose proof (keeps_self_load_loop (srv_question_data srv chapter_id) []
                (after_event st (EvGet (ENDPOINT_question_data chapter_id) [])))
    as Hself.
  destruct (load_loop _ _ _) as [[data|err] st'] eqn:Hloop;
    injection Hrun as <- <-; simpl in *; rewrite Hself; [|done].
  rewrite get_update_other; [done|].
  rewrite (load_loop_keys _ _ _ _ _ Hloop). simpl.
  intros [Hnil|[_ Hnew]]; [by apply elem_of_nil in Hnil|].
  apply get_None in Hnew. congruence.
Qed.

Lemma load_question_data_NoDup chapter_id st r1 st1 :
  load_question_data srv chapter_id st = (r1, st1) →
  NoDup (keys (_questions (self st))) →
  NoDup (keys (_questions (self st1))).
Proof.
  rewrite load_question_data_unfold. intros Hrun Hnd.
  pose proof (keeps_self_load_loop (srv_question_data srv chapter_id) []
                (after_event st (EvGet (ENDPOINT_question_data chapter_id) [])))
    as Hself.
  destruct (load_loop _ _ _) as [[data|err] st'] eqn:Hloop;
    injection Hrun as <- <-; simpl in *; rewrite Hself; [|done].
  by apply NoDup_keys_update.
Qed.

Lemma load_question_data_again chapter_id st st1 :
  load_question_data srv chapter_id st = (Ok tt, st1) →
  load_question_data srv chapter_id st1 =
  (Ok tt, after_event st1 (EvGet (ENDPOINT_question_data chapter_id) [])).
Proof.
  rewrite load_question_data_unfold. intros Hrun.
  pose proof (keeps_self_load_loop (srv_question_data srv chapter_id) []
                (after_event st (EvGet (ENDPOINT_question_data chapter_id) [])))
    as Hself.
  destruct (load_loop _ _ _) as [[data|err] st'] eqn:Hloop; [|done].
  injection Hrun as <-. simpl in Hself.
  rewrite load_question_data_unfold, load_loop_known.
  - reflexivity.
  - intros k Hk. simpl. rewrite elem_of_keys_update, Hself.
    destruct (decide (k ∈ keys (_questions (self st)))) as [|Hnew]; [by left|].
    right. rewrite (load_loop_keys _ _ _ _ _ Hloop). by right.
Qed.
End load_twice.

(** C1: a question whose id is already a key of the accumulated mapping is
    skipped, so a load never overwrites an entry and never makes a key occur
    twice, and loading the same chapter a second time leaves the mapping,
    and with it the number of questions, as the first load left it. *)
Theorem C1_load_idempotent (srv : server) :
  (∀ q qs data st,
      q_id q ∈ PyDict.keys (_questions (self st)) →
      load_loop (q :: qs) data st = load_loop qs data st)
  ∧ (∀ chapter_id st r1 st1,
      load_question_data srv chapter_id st = (r1, st1) →
      (∀ k e, PyDict.get (_questions (self st)) k = Some e →
              PyDict.get (_questions (self st1)) k = Some e)
      ∧ (NoDup (PyDict.keys (_questions (self st))) →
         NoDup (PyDict.keys (_questions (self st1))))
      ∧ (r1 = Ok tt →
         ∃ st2, load_question_data srv chapter_id st1 = (Ok tt, st2)
                ∧ _questions (self st2) = _questions (self st1)
                ∧ length (_questions (self st2)) = length (_questions (self st1)))).
Proof.
  split.
  - intros q qs data st Hq. rewrite load_loop_cons.
    by rewrite (proj2 (PyDictFacts.mem_true _ _) Hq).
  - intros chapter_id st r1 st1 Hrun. split_and!.
    + intros k e. by eapply load_question_data_old.
    + by eapply load_question_data_NoDup.
    + intros ->. eexists. split; [by eapply load_question_data_again|done].
Qed.

Lemma C1_load_idempotent_witness :
  load_question_data Sample.srv0 31 Sample.st0 = (Ok tt, Sample.st_loaded)
  ∧ length (_questions (self Sample.st_loaded)) = 2%nat
  ∧ ∃ st2, load_question_data Sample.srv0 31 Sample.st_loaded = (Ok tt, st2)
           ∧ _questions (self st2) = _questions (self Sample.st_loaded)
           ∧ length (_questions (self st2)) =
             length (_questions (self Sample.st_loaded)).
Proof.
  split; [reflexivity|]. split; [reflexivity|].
  exact (proj2 (proj2 (proj2 (C1_load_idempotent Sample.srv0) 31 Sample.st0
                         (Ok tt) Sample.st_loaded eq_refl)) eq_refl).
Defined.

(** ** Submitting an answer *)

(** C6: for a question id that is not a key of the accumulated mapping,
    [answer_question] prints a message, returns [None] without raising and
    posts nothing; the object, and with it the mapping, is unchanged. *)
Theorem C6_answer_unknown (srv : server) (question_id : Z) (st : state) :
  question_id ∉ PyDict.keys (_questions (self st)) →
  answer_question srv question_id st =
  (Ok None,
   {| self := self st; rng := rng st;
      trace := trace st ++
        [EvPrint ("Question ID has not been loaded: " +:+ pretty question_id)] |}).
Proof.
  intros Hk. apply PyDictFacts.get_None in Hk.
  unfold answer_question, mbind, M_bind, get_self. by rewrite Hk.
Qed.

Lemma C6_answer_unknown_witness :
(99 ∉ PyDict.keys (_questions (self Sample.st_loaded)))
  ∧ answer_question Sample.srv0 99 Sample.st_loaded =
    (Ok None,
     {| self := self Sample.st_loaded; rng := rng Sample.st_loaded;
        trace := trace Sample.st_loaded ++
          [EvPrint "Question ID has not been loaded: 99"] |}).
Proof.
  assert (99 ∉ PyDict.keys (_questions (self Sample.st_loaded))) as Hk.
  { apply (bool_decide_unpack _). vm_compute. exact I. }
  split; [exact Hk|].
  exact (C6_answer_unknown Sample.srv0 99 Sample.st_loaded Hk).
Defined.

(** ** Construction *)

Section construction.
Context (srv : server).
Import PyDict PyDictFacts.

(** The session of a fresh object has no cookie: the CSRF token is asked of
    the platform, once. *)
Lemma _csrf_token_missing st :
  cookies (self st) = [] →
  "csrftoken" ∉ keys (srv_csrf srv) →
  ∃ b', _csrf_token srv st =
        (Raise AssertionError,
         {| self := b'; rng := rng st;
            trace := trace st ++ [EvGet ENDPOINT_csrf []] |}).
Proof.
  intros Hjar Hno.
  assert (get (update (V:=string) [] (srv_csrf srv)) "csrftoken" = None) as Hget.
  { apply get_None. rewrite elem_of_keys_update. intros [Hnil|?]; [|done].
    by apply elem_of_nil in Hnil. }
  unfold _csrf_token, _load_csrf_cookie, mbind, M_bind, get_self, put_self,
    emit, raise, mem. rewrite Hjar. cbn [get self cookies set_cookies rng trace].
  rewrite !Hjar, Hget. by eexists.
Qed.

Lemma _csrf_token_present st :
  cookies (self st) = [] →
  "csrftoken" ∈ keys (srv_csrf srv) →
  ∃ tok, _csrf_token srv st =
         (Ok tok,
          {| self := set_cookies (update [] (srv_csrf srv)) (self st);
             rng := rng st;
             trace := trace st ++ [EvGet ENDPOINT_csrf []] |}).
Proof.
  intros Hjar Hyes.
  destruct (get (update (V:=string) [] (srv_csrf srv)) "csrftoken")
    as [tok|] eqn:Hget.
  2:{ apply get_None in Hget. destruct Hget.
      rewrite elem_of_keys_update. by right. }
  exists tok.
  unfold _csrf_token, _load_csrf_cookie, mbind, M_bind, get_self, put_self,
    emit, raise, mem. rewrite Hjar. cbn [get self cookies set_cookies rng trace].
  rewrite !Hjar, Hget. unfold mret, M_ret.
  cbn [self cookies set_cookies]. by rewrite Hget.
Qed.
End construction.

(** C8: construction raises, so that the caller gets no object, whenever
    the CSRF bootstrap response sets no "csrftoken" cookie and whenever the
    login response has no token header; each request is made once. *)
Theorem C8_construction_fails (srv : server) (CID : option Z)
    (user pass : string) (cid : option Z) (c : Z) (g : nat → nat)
    (tr : list event) :
  or_COURSE_ID cid CID = Some c →
  ("csrftoken" ∉ PyDict.keys (srv_csrf srv) →
   new srv CID user pass cid g tr =
   (Raise AssertionError, g, tr ++ [EvGet ENDPOINT_csrf []]))
  ∧ ("csrftoken" ∈ PyDict.keys (srv_csrf srv) →
     srv_login srv user pass = None →
     new srv CID user pass cid g tr =
     (Raise KeyError, g,
      tr ++ [EvGet ENDPOINT_csrf [];
             EvPost ENDPOINT_login
               [("username", PStr user); ("password", PStr pass)]])).
Proof.
  intros Hc. split.
  - intros Hno. unfold new, __init__. rewrite Hc.
    unfold mbind, M_bind, get_self, put_self.
    cbn [from_option mret M_ret self rng trace].
    match goal with
    | |- context [_csrf_token srv ?s] =>
        destruct (_csrf_token_missing srv s eq_refl Hno) as [b' ->]
    end.
    reflexivity.
  - intros Hyes Hlogin. unfold new, __init__. rewrite Hc.
    unfold mbind, M_bind, get_self, put_self.
    cbn [from_option mret M_ret self rng trace].
    match goal with
    | |- context [_csrf_token srv ?s] =>
        destruct (_csrf_token_present srv s eq_refl Hyes) as [tok ->]
    end.
    unfold _login, mbind, M_bind, get_self, put_self, emit.
    cbn [self rng trace username password set_headers set_cookies
         set_credentials].
    rewrite Hlogin. cbn. by rewrite <-app_assoc.
Qed.

Lemma C8_construction_fails_witness :
  (new Sample.srv_no_csrf COURSE_ID "alice" "secret" None (fun _ => 0%nat) [] =
   (Raise AssertionError, fun _ => 0%nat, [EvGet ENDPOINT_csrf []]))
  ∧ (new Sample.srv_no_jwt COURSE_ID "alice" "secret" None (fun _ => 0%nat) [] =
     (Raise KeyError, fun _ => 0%nat,
      [EvGet ENDPOINT_csrf [];
       EvPost ENDPOINT_login
         [("username", PStr "alice"); ("password", PStr "secret")]])).
Proof.
  split.
  - refine (proj1 (C8_construction_fails Sample.srv_no_csrf COURSE_ID
                     "alice" "secret" None 250265 (fun _ => 0%nat) [] eq_refl) _).
    apply (bool_decide_unpack _). vm_compute. exact I.
  - refine (proj2 (C8_construction_fails Sample.srv_no_jwt COURSE_ID
                     "alice" "secret" None 250265 (fun _ => 0%nat) [] eq_refl)
              _ eq_refl).
    apply (bool_decide_unpack _). vm_compute. exact I.
Defined.

(** ** Chapters *)

Section chapters.
Context (srv : server).
Import PyDict PyDictFacts PyStrFacts.

Lemma NoDup_keys_filter {V} (P : string * V → Prop) `{∀ x, Decision (P x)}
    (d : list (string * V)) :
  NoDup (keys d) → NoDup (keys (filter P d)).
Proof.
  unfold keys. induction d as [|[k v] d IH]; [done|].
  rewrite fmap_cons, NoDup_cons. intros [Hk Hnd].
  rewrite filter_cons. case_decide; [|by apply IH].
  rewrite fmap_cons, NoDup_cons. split; [|by apply IH].
  intros ([k' v'] & Heq & Hin)%list_elem_of_fmap. simpl in Heq, Hk. subst k'.
  apply list_elem_of_filter in Hin as [_ Hin].
  apply Hk, list_elem_of_fmap. by exists (k, v').
Qed.

Lemma required_chapters_filter b :
  NoDup (keys (_chapters b)) →
  required_chapters b = filter (fun kv => is_required kv.1 = true) (_chapters b).
Proof.
  intros Hnd. unfold required_chapters.
  rewrite of_items_NoDup; [done|]. by apply NoDup_keys_filter.
Qed.

Lemma is_required_spec name :
  is_required name = true ↔
  (∃ r, name = "Chapter" +:+ r) ∧ ¬ (∃ a c, name = a +:+ "OPTIONAL" +:+ c).
Proof.
  unfold is_required.
  rewrite andb_true_iff, negb_true_iff, startswith_spec, <-contains_spec.
  destruct (PyStr.contains "OPTIONAL" name); split; intros [Hs Hc];
    (split; [exact Hs|congruence]).
Qed.

Lemma matches_numbers_spec nums name :
  matches_numbers nums name = true ↔
  ∃ i, i ∈ nums ∧ ∃ r, name = ("Chapter " +:+ pretty i) +:+ r.
Proof.
  unfold matches_numbers. rewrite existsb_exists. split.
  - intros (i & Hi & Hp). exists i. split; [by apply list_elem_of_In|].
    by apply startswith_spec.
  - intros (i & Hi & Hp). exists i. split; [by apply list_elem_of_In|].
    by apply startswith_spec.
Qed.

Lemma load_chapters_loop_filter vp items : ∀ st,
  load_chapters_loop srv vp items st =
  load_each srv (filter (fun kv => startswith_any kv.1 vp = true) items) st.
Proof.
  induction items as [|[chapter chapter_id] items IH]; intros st; [done|].
  rewrite filter_cons. cbn [load_chapters_loop fst].
  destruct (startswith_any chapter vp) eqn:Hsw.
  - rewrite decide_True by done. cbn [load_each].
    unfold mbind at 1 3, M_bind at 1 3.
    destruct ((emit _ ≫= _) st) as [[[]|e] st1]; [apply IH|done].
  - rewrite decide_False by done.
    unfold mbind at 1, M_bind at 1. apply IH.
Qed.

Lemma startswith_any_tuple name nums :
  nums ≠ [] →
  startswith_any name (valid_prefixes nums) = matches_numbers nums name.
Proof.
  intros Hnums. unfold valid_prefixes, matches_numbers.
  destruct nums as [|i nums]; [done|].
  cbn [fmap list_fmap startswith_any]. fold (fmap (M:=list) (fun i => "Chapter " +:+ pretty i) nums).
  cbn [existsb]. f_equal.
  induction nums as [|j nums IH]; [done|]. cbn. by rewrite IH.
Qed.
End chapters.

(** C7: the required chapters are exactly the chapters whose display name
    starts with "Chapter" and does not contain "OPTIONAL" ("Chapter 3: Intro"
    is one, "Chapter 3 OPTIONAL" and "Appendix" are not); with a non-empty
    list of chapter numbers, the chapters loaded are exactly the required
    chapters whose name starts with "Chapter ", the blank included, followed
    by one of the numbers. *)
Theorem C7_required_chapters (srv : server) :
  (∀ b name id,
      NoDup (PyDict.keys (_chapters b)) →
      PyDict.get (required_chapters b) name = Some id ↔
      PyDict.get (_chapters b) name = Some id
      ∧ (∃ r, name = "Chapter" +:+ r)
      ∧ ¬ (∃ a c, name = a +:+ "OPTIONAL" +:+ c))
  ∧ required_chapters Sample.bot0 =
    [("Chapter 3: Intro", 31); ("Chapter 10: Review", 34)]
  ∧ (∀ nums st,
      nums ≠ [] →
      _load_chapters srv (Some nums) st =
      load_each srv
        (filter (fun kv => matches_numbers nums kv.1 = true)
           (required_chapters (self st))) st)
  ∧ (∀ nums name,
      matches_numbers nums name = true ↔
      ∃ i, i ∈ nums ∧ ∃ r, name = ("Chapter " +:+ pretty i) +:+ r).
Proof.
  split_and!.
  - intros b name id Hnd.
    rewrite required_chapters_filter by done.
    rewrite !PyDictFacts.get_Some_elem_of
      by (try apply NoDup_keys_filter; done).
    rewrite list_elem_of_filter. cbn [fst]. rewrite is_required_spec. tauto.
  - reflexivity.
  - intros nums st Hnums. unfold _load_chapters. cbn [default].
    unfold mbind, M_bind, get_self. rewrite load_chapters_loop_filter.
    f_equal. apply list_filter_iff. intros [name id]. cbn [fst].
    by rewrite startswith_any_tuple.
  - apply matches_numbers_spec.
Qed.

Lemma C7_required_chapters_witness :
  NoDup (PyDict.keys (_chapters Sample.bot0))
  ∧ PyDict.get (required_chapters Sample.bot0) "Chapter 3: Intro" = Some 31
  ∧ PyDict.get (required_chapters Sample.bot0) "Chapter 3 OPTIONAL" = None
  ∧ PyDict.get (required_chapters Sample.bot0) "Appendix" = None
  ∧ _load_chapters Sample.srv0 (Some [10]) (after_event Sample.st0 (EvPrint "")) =
    load_each Sample.srv0
      (filter (fun kv => matches_numbers [10] kv.1 = true)
         (required_chapters (self (after_event Sample.st0 (EvPrint "")))))
      (after_event Sample.st0 (EvPrint "")).
Proof.
  assert (NoDup (PyDict.keys (_chapters Sample.bot0))) as Hnd.
  { apply (bool_decide_unpack _). vm_compute. exact I. }
  split; [exact Hnd|]. split; [|split; [reflexivity|split; [reflexivity|]]].
  - apply (proj1 (C7_required_chapters Sample.srv0) Sample.bot0 _ _ Hnd).
    split; [reflexivity|]. split; [by exists " 3: Intro"|].
    intros Hc. apply PyStrFacts.contains_spec in Hc. discriminate Hc.
  - exact (proj1 (proj2 (proj2 (C7_required_chapters Sample.srv0))) [10]
             (after_event Sample.st0 (EvPrint "")) ltac:(discriminate)).
Defined.

Lemma filter_all {A} (P : A → Prop) `{∀ x, Decision (P x)} (l : list A) :
  (∀ x, P x) → filter P l = l.
Proof.
  intros HP. induction l as [|x l IH]; [done|].
  by rewrite filter_cons_True, IH.
Qed.

(** C9: an empty list of chapter numbers behaves as no list at all: the
    prefixes collapse to the empty string, every name starts with it, and
    every required chapter is loaded; so for [list_questions] and [run]. *)
Theorem C9_empty_filter (srv : server) :
  _load_chapters srv (Some []) = _load_chapters srv None
  ∧ list_questions srv (Some []) = list_questions srv None
  ∧ (∀ delay, run srv (Some []) delay = run srv None delay)
  ∧ valid_prefixes [] = PrefixStr ""
  ∧ (∀ name, startswith_any name (PrefixStr "") = true)
  ∧ (∀ st, _load_chapters srv (Some []) st =
           load_each srv (required_chapters (self st)) st).
Proof.
  split_and!; try reflexivity.
  - intros name. apply PyStrFacts.startswith_empty.
  - intros st. unfold _load_chapters. cbn [default].
    unfold mbind, M_bind, get_self. rewrite load_chapters_loop_filter.
    f_equal. apply filter_all. intros [name id]. cbn [fst].
    apply PyStrFacts.startswith_empty.
Qed.

(** ** The handshake and a submission, run on the sample platform *)

Example construction_succeeds :
  match (new Sample.srv0 COURSE_ID "alice" "secret" None (fun _ => 0%nat) []).1.1 with
  | Ok b =>
      course_id b = 250265
      ∧ headers b =
        [("user-agent", USER_AGENT); ("x-csrftoken", "t0k3n");
         ("authorization", "Bearer jwt")]
      ∧ _chapters b = srv_tree Sample.srv0 250265
      ∧ _questions b = []
  | Raise _ => False
  end.
Proof. vm_compute. done. Qed.

Example construction_trace :
  (new Sample.srv0 COURSE_ID "alice" "secret" None (fun _ => 0%nat) []).2 =
  [EvGet ENDPOINT_csrf [];
   EvPost ENDPOINT_login [("username", PStr "alice"); ("password", PStr "secret")];
   EvGet ENDPOINT_file_tree
     [("module_id", PStr "unitree"); ("course_id", PInt 250265);
      ("limit", PInt 0)]].
Proof. reflexivity. Qed.

Example answer_known :
  answer_question Sample.srv0 1 Sample.st_loaded =
  (Ok (Some "{}"),
   after_event Sample.st_loaded
     (EvPost "https://app.tophat.com/api/v3/question/1/answer/"
        [("answer", PList [PStr "a"; PStr "b"; PStr "c"; PStr "d"])])).
Proof. reflexivity. Qed.

(** * Further properties of the code *)

(** ** Dictionaries built from a list of pairs *)

Section more_dict.
Context {K V : Type} `{EqDecision K}.
Implicit Types (d o : list (K * V)) (k : K) (v : V).
Import PyDict PyDictFacts.

Lemma get_app d o k :
  get (d ++ o) k = match get d k with Some v => Some v | None => get o k end.
Proof.
  induction d as [|[k0 v0] d IH]; simpl; [done|]. by case_decide.
Qed.

(** After [d.update(o)] a key has the value of its last pair in [o], or
    else the value it had in [d]. *)
Lemma get_update o : ∀ d k,
  get (update d o) k =
  match get (reverse o) k with Some v => Some v | None => get d k end.
Proof.
  unfold update. induction o as [|[k0 v0] o IH]; intros d k; simpl; [done|].
  rewrite IH, reverse_cons, get_app, get_set. simpl.
  destruct (get (reverse o) k); [done|]. by case_decide.
Qed.

Lemma get_reverse d k : NoDup (keys d) → get (reverse d) k = get d k.
Proof.
  unfold keys. induction d as [|[k0 v0] d IH]; simpl; [done|].
  rewrite NoDup_cons. intros [Hk0 Hnd].
  rewrite reverse_cons, get_app, IH by done. simpl.
  case_decide as Hk; [subst|by destruct (get d k)].
  by rewrite (proj2 (get_None d k) Hk0).
Qed.
End more_dict.

(** ** The chapter tree *)


(** ** The handshake *)





Lemma _csrf_token_known (srv : server) (st : state) (tok : string) :
  PyDict.get (cookies (self st)) "csrftoken" = Some tok →
  _csrf_token srv st = (Ok tok, st).
Proof.
  intros Hget.
  unfold _csrf_token, mbind, M_bind, get_self, PyDict.mem. rewrite Hget.
  unfold mret, M_ret. by rewrite Hget.
Qed.

(** X4: the CSRF token is asked of the platform once: when reading it has
    succeeded, reading it again gives the same token without any request
    and without any change. *)
Theorem X4_csrf_token_cached (srv : server) (st st1 : state) (tok : string) :
  _csrf_token srv st = (Ok tok, st1) →
  _csrf_token srv st1 = (Ok tok, st1).
Proof.
  intros Hrun. apply _csrf_token_known. revert Hrun.
  unfold _csrf_token, _load_csrf_cookie, mbind, M_bind, get_self, put_self,
    emit, raise, PyDict.mem.
  destruct (PyDict.get (cookies (self st)) "csrftoken") as [t|] eqn:Hget.
  - unfold mret, M_ret. rewrite Hget. cbn [from_option].
    by intros [= <- <-].
  - cbn [self cookies set_cookies rng trace].
    destruct (PyDict.get (PyDict.update (cookies (self st)) (srv_csrf srv))
                "csrftoken") as [t|] eqn:Hjar; [|done].
    unfold mret, M_ret. cbn [self cookies set_cookies]. rewrite Hjar.
    cbn [from_option]. by intros [= <- <-].
Qed.

Lemma X4_csrf_token_cached_witness :
  _csrf_token Sample.srv0 Sample.st0 =
  (Ok "t0k3n", (_csrf_token Sample.srv0 Sample.st0).2)
  ∧ _csrf_token Sample.srv0 (_csrf_token Sample.srv0 Sample.st0).2 =
    (Ok "t0k3n", (_csrf_token Sample.srv0 Sample.st0).2).
Proof.
  split; [reflexivity|].
  exact (X4_csrf_token_cached Sample.srv0 Sample.st0
           (_csrf_token Sample.srv0 Sample.st0).2 "t0k3n" eq_refl).
Defined.

(** ** The other rules of the answer derivation *)

Lemma derive_by_type_eq (q : question) :
  q_has_correct_answer q ≠ PBool false → derive_answer q = derive_by_type q.
Proof. intros Hq. unfold derive_answer. by rewrite is_False_ne. Qed.

(** X5: for a question with a known correct answer and type "wa" or "na"
    whose correct answers are a non-empty list, the derived answer is a
    one-element sequence whose element is one of the correct answers, and
    one output of the generator is used. *)
Theorem X5_written_answer (q : question) (cs : list pyval) (st : state) :
  q_has_correct_answer q ≠ PBool false →
  q_type q = "wa" ∨ q_type q = "na" →
  q_correct_answers q = PList cs →
  cs ≠ [] →
  ∃ c, c ∈ cs ∧
    derive_answer q st =
    (Ok (PList [c]),
     {| self := self st; rng := fun k => rng st (S k); trace := trace st |}).
Proof.
  intros Hhca Hty Hca Hcs. rewrite derive_by_type_eq by done.
  destruct (random_choice_list cs st Hcs) as (c & Hin & Hc).
  exists c. split; [done|].
  unfold derive_by_type. rewrite Hca.
  destruct Hty as [-> | ->]; cbn [bool_decide decide_rel];
    repeat (rewrite bool_decide_eq_false_2 by done);
    rewrite ?(bool_decide_eq_true_2 ("wa" = "wa")),
            ?(bool_decide_eq_true_2 ("na" = "na")) by done;
    cbn [orb]; unfold mbind, M_bind; by rewrite Hc.
Qed.

Lemma X5_written_answer_witness :
  ∃ c, c ∈ [PStr "forty-two"; PStr "42"] ∧
    derive_answer
      (Sample.mk_question 7 "na" (PBool true) (PList [])
         (PList [PStr "forty-two"; PStr "42"])) Sample.st0 =
    (Ok (PList [c]),
     {| self := self Sample.st0; rng := fun k => rng Sample.st0 (S k);
        trace := trace Sample.st0 |}).
Proof.
  exact (X5_written_answer
           (Sample.mk_question 7 "na" (PBool true) (PList [])
              (PList [PStr "forty-two"; PStr "42"]))
           _ Sample.st0 ltac:(discriminate) (or_intror eq_refl) eq_refl
           ltac:(discriminate)).
Defined.

(** X6: for a question with a known correct answer, type "mc" gives the
    correct-answers field as it is, of whatever shape, with no event; a
    type that is none of match, sort, wa, na, fitbq, mc gives the same
    answer after one warning that names the type. *)
Theorem X6_verbatim_answer (q : question) (st : state) :
  q_has_correct_answer q ≠ PBool false →
  (q_type q = "mc" → derive_answer q st = (Ok (q_correct_answers q), st))
  ∧ (q_type q ∉ ["match"; "sort"; "wa"; "na"; "fitbq"; "mc"] →
     derive_answer q st =
     (Ok (q_correct_answers q),
      after_event st
        (EvWarn ("Unrecognized question type: " +:+ q_type q +:+ ".")))).
Proof.
  intros Hhca. rewrite derive_by_type_eq by done. unfold derive_by_type. split.
  - intros ->. by repeat (rewrite bool_decide_eq_false_2 by done).
  - intros Hty. rewrite !not_elem_of_cons in Hty.
    destruct Hty as (? & ? & ? & ? & ? & ? & _).
    by repeat (rewrite bool_decide_eq_false_2 by done).
Qed.

Lemma X6_verbatim_answer_witness :
  derive_answer (Sample.mk_question 8 "mc" (PBool true) (PList []) PNone)
    Sample.st0 = (Ok PNone, Sample.st0)
  ∧ derive_answer (Sample.mk_question 9 "essay" (PBool true) (PList [])
                     (PList [PStr "B"])) Sample.st0 =
    (Ok (PList [PStr "B"]),
     after_event Sample.st0 (EvWarn "Unrecognized question type: essay.")).
Proof.
  split.
  - exact (proj1 (X6_verbatim_answer
                    (Sample.mk_question 8 "mc" (PBool true) (PList []) PNone)
                    Sample.st0 ltac:(discriminate)) eq_refl).
  - refine (proj2 (X6_verbatim_answer
                     (Sample.mk_question 9 "essay" (PBool true) (PList [])
                        (PList [PStr "B"]))
                     Sample.st0 ltac:(discriminate)) _).
    apply (bool_decide_unpack _). vm_compute. exact I.
Defined.

Lemma split_each_not_string (sep : string) (l : list pyval) (v : pyval) :
  v ∈ l → (∀ s, v ≠ PStr s) → split_each sep l = Raise AttributeError.
Proof.
  intros Hin Hv. induction l as [|x l IH]; [by apply elem_of_nil in Hin|].
  apply elem_of_cons in Hin as [<-|Hin].
  - cbn [split_each]. destruct v; try done. by destruct (Hv s).
  - cbn [split_each]. destruct x; try done.
    cbn [py_split mbind result_bind]. by rewrite IH.
Qed.

(** X7: correct answers of the wrong shape make the derivation raise
    [AttributeError] and leave the state as it is: for type "match" or
    "sort" a list with an element that is not a string, for type "fitbq" a
    value that is not a mapping. *)
Theorem X7_malformed_answers (q : question) (st : state) :
  q_has_correct_answer q ≠ PBool false →
  (∀ l v, q_type q = "match" ∨ q_type q = "sort" →
          q_correct_answers q = PList l → v ∈ l → (∀ s, v ≠ PStr s) →
          derive_answer q st = (Raise AttributeError, st))
  ∧ (q_type q = "fitbq" → (∀ d, q_correct_answers q ≠ PDict d) →
     derive_answer q st = (Raise AttributeError, st)).
Proof.
  intros Hhca. rewrite derive_by_type_eq by done. unfold derive_by_type. split.
  - intros l v Hty Hca Hin Hv. rewrite Hca.
    destruct Hty as [-> | ->];
      repeat (rewrite bool_decide_eq_false_2 by done);
      rewrite ?(bool_decide_eq_true_2 ("match" = "match")),
              ?(bool_decide_eq_true_2 ("sort" = "sort")) by done;
      unfold lift, split_parts; cbn [py_iter mbind result_bind];
      by rewrite (split_each_not_string _ l v).
  - intros -> Hca. repeat (rewrite bool_decide_eq_false_2 by done).
    rewrite bool_decide_eq_true_2 by done.
    destruct (q_correct_answers q) as [| | | | |d]; try done.
    by destruct (Hca d).
Qed.

Lemma X7_malformed_answers_witness :
  derive_answer (Sample.mk_question 10 "sort" (PBool true) (PList [])
                   (PList [PStr "x, y"; PInt 3])) Sample.st0 =
  (Raise AttributeError, Sample.st0)
  ∧ derive_answer (Sample.mk_question 11 "fitbq" (PBool true) (PList [])
                     (PList [PStr "foo"])) Sample.st0 =
    (Raise AttributeError, Sample.st0).
Proof.
  split.
  - refine (proj1 (X7_malformed_answers
                     (Sample.mk_question 10 "sort" (PBool true) (PList [])
                        (PList [PStr "x, y"; PInt 3]))
                     Sample.st0 ltac:(discriminate))
              _ (PInt 3) (or_intror eq_refl) eq_refl _ ltac:(discriminate)).
    apply elem_of_cons. right. apply elem_of_cons. by left.
  - exact (proj2 (X7_malformed_answers
                    (Sample.mk_question 11 "fitbq" (PBool true) (PList [])
                       (PList [PStr "foo"]))
                    Sample.st0 ltac:(discriminate)) eq_refl
             ltac:(discriminate)).
Defined.

(** X8: for a question with a known correct answer and type "match" (or
    "sort") whose correct answers are strings, the derived answer is made of
    one group of parts per string, in order; the parts of a group joined by
    the delimiter "|,,| " (or ", ") give the string back, and no part
    contains the delimiter. *)
Theorem X8_parts_of_answers (q : question) (sep : string) (ss : list string)
    (st : state) :
  q_has_correct_answer q ≠ PBool false →
  (q_type q = "match" ∧ sep = "|,,| ") ∨ (q_type q = "sort" ∧ sep = ", ") →
  q_correct_answers q = PList (PStr <$> ss) →
  ∃ groups : list (list string),
    derive_answer q st = (Ok (PList (PStr <$> concat groups)), st)
    ∧ Forall2 (parts_of sep) ss groups.
Proof.
  intros Hhca Hty Hca. exists ((fun s => PyStr.split s sep) <$> ss). split.
  - rewrite <-flat_map_concat_map.
    rewrite derive_by_type_eq by done. unfold derive_by_type.
    rewrite Hca.
    destruct Hty as [[-> ->]|[-> ->]];
      repeat (rewrite bool_decide_eq_false_2 by done);
      rewrite ?(bool_decide_eq_true_2 ("match" = "match")),
              ?(bool_decide_eq_true_2 ("sort" = "sort")) by done;
      unfold lift; by rewrite split_parts_strings.
  - apply Forall2_fmap_r, Forall_Forall2_diag, Forall_forall. intros s _.
    assert (sep ≠ "") as Hsep by (by destruct Hty as [[_ ->]|[_ ->]]).
    split; [by apply PyStrFacts.join_split|].
    intros p. by apply PyStrFacts.split_no_sep.
Qed.

Lemma X8_parts_of_answers_witness :
  ∃ groups : list (list string),
    derive_answer Sample.q_match Sample.st0 =
    (Ok (PList (PStr <$> concat groups)), Sample.st0)
    ∧ Forall2 (parts_of "|,,| ") ["a|,,| b"; "c|,,| d"] groups.
Proof.
  exact (X8_parts_of_answers Sample.q_match "|,,| " ["a|,,| b"; "c|,,| d"]
           Sample.st0 ltac:(discriminate) (or_introl (conj eq_refl eq_refl))
           eq_refl).
Defined.

(** ** What a load does to the object and to the outside *)

Section emits.
Context (srv : server).
Import PyDict PyDictFacts.

Lemma emits_only_ret {A} P (a : A) : emits_only P (mret a).
Proof. intros st. exists []. by rewrite app_nil_r. Qed.
Lemma emits_only_lift {A} P (r : result A) : emits_only P (lift r).
Proof. intros st. exists []. by rewrite app_nil_r. Qed.
Lemma emits_only_emit (P : event → Prop) e : P e → emits_only P (emit e).
Proof. intros He st. exists [e]. split; [done|]. by apply Forall_singleton. Qed.
Lemma emits_only_random_choice P seq : emits_only P (random_choice seq).
Proof.
  intros st. exists []. rewrite app_nil_r. unfold random_choice.
  by destruct (py_len seq) as [[|n]|e].
Qed.
Lemma emits_only_bind {A B} P (m : M A) (f : A → M B) :
  emits_only P m → (∀ a, emits_only P (f a)) → emits_only P (m ≫= f).
Proof.
  intros Hm Hf st. unfold mbind, M_bind.
  destruct (Hm st) as (evs & Htr & Hevs).
  destruct (m st) as [[a|e] st1]; simpl in *; [|by exists evs].
  destruct (Hf a st1) as (evs' & Htr' & Hevs').
  exists (evs ++ evs'). split; [|by apply Forall_app].
  by rewrite Htr', Htr, <-app_assoc.
Qed.
Lemma emits_only_mono {A} (P Q : event → Prop) (m : M A) :
  (∀ e, P e → Q e) → emits_only P m → emits_only Q m.
Proof.
  intros HPQ Hm st. destruct (Hm st) as (evs & Htr & Hevs).
  exists evs. split; [done|]. by eapply Forall_impl.
Qed.

Lemma emits_only_derive_answer q : emits_only is_warning (derive_answer q).
Proof.
  unfold derive_answer, derive_by_type.
  repeat case_match;
    repeat first [apply emits_only_bind; [|intros ?] | apply emits_only_ret
                 | apply emits_only_lift | by apply emits_only_emit
                 | apply emits_only_random_choice].
Qed.

Lemma emits_only_load_loop qs : ∀ data, emits_only is_warning (load_loop qs data).
Proof.
  induction qs as [|q qs IH]; intros data; [apply emits_only_ret|].
  intros st. rewrite load_loop_cons. case_match; [apply IH|].
  destruct (emits_only_derive_answer q st) as (evs & Htr & Hevs).
  destruct (derive_answer q st) as [[a|e] st1]; simpl in *; [|by exists evs].
  destruct (IH (set (q_id q) (new_entry q a) data) st1) as (evs' & Htr' & Hevs').
  exists (evs ++ evs'). split; [|by apply Forall_app].
  by rewrite Htr', Htr, <-app_assoc.
Qed.

Lemma load_loop_NoDup qs : ∀ data st data' st',
  load_loop qs data st = (Ok data', st') →
  NoDup (keys data) → NoDup (keys data').
Proof.
  induction qs as [|q qs IH]; intros data st data' st' Hrun Hnd.
  - by injection Hrun as <- <-.
  - rewrite load_loop_cons in Hrun. case_match; [by eapply IH|].
    destruct (derive_answer q st) as [[a|e] st1]; [|done].
    eapply IH; [done|]. by apply NoDup_keys_set.
Qed.

(** The entry of the local dictionary for an id that the object does not
    know: that of the last question of the response with this id, with an
    answer derived for that question. *)
Lemma load_loop_get qs : ∀ data st data' st' k,
  load_loop qs data st = (Ok data', st') →
  k ∉ keys (_questions (self st)) →
  match last_with_id k qs with
  | Some q =>
      ∃ answer sa sb,
        derive_answer q sa = (Ok answer, sb)
        ∧ get data' k = Some (new_entry q answer)
  | None => get data' k = get data k
  end.
Proof.
  induction qs as [|q qs IH]; intros data st data' st' k Hrun Hk.
  - by injection Hrun as <- <-.
  - rewrite load_loop_cons in Hrun. cbn [last_with_id].
    destruct (mem (q_id q) (_questions (self st))) eqn:Hmem.
    + apply mem_true in Hmem. specialize (IH _ _ _ _ k Hrun Hk).
      destruct (last_with_id k qs); [done|].
      rewrite decide_False; [done|]. by intros <-.
    + pose proof (keeps_self_derive_answer q st) as Hself.
      destruct (derive_answer q st) as [[a|e] st1] eqn:Hd; simpl in *; [|done].
      rewrite <-Hself in Hk. specialize (IH _ _ _ _ k Hrun Hk).
      destruct (last_with_id k qs); [done|].
      rewrite IH, get_set. case_decide; [|done]. by exists a, st, st1.
Qed.
End emits.

(** X9: a load changes nothing of the object but its questions, and a load
    that raises changes nothing at all: the questions derived before the
    failure are not merged. *)
Theorem X9_load_failure_atomic (srv : server) (chapter_id : Z)
    (st st1 : state) (r : result unit) :
  load_question_data srv chapter_id st = (r, st1) →
  same_but_questions (self st) (self st1)
  ∧ (∀ e, r = Raise e → self st1 = self st).
Proof.
  rewrite load_question_data_unfold. intros Hrun.
  pose proof (keeps_self_load_loop (srv_question_data srv chapter_id) []
                (after_event st (EvGet (ENDPOINT_question_data chapter_id) [])))
    as Hself.
  destruct (load_loop _ _ _) as [[data|err] st'];
    injection Hrun as <- <-; simpl in *.
  - split; [|done]. unfold same_but_questions. rewrite Hself.
    by destruct (self st).
  - split; [|done]. unfold same_but_questions. rewrite Hself.
    by destruct (self st).
Qed.

Lemma X9_load_failure_atomic_witness :
  ∃ st1, load_question_data Sample2.srv_bad 31 Sample.st0 = (Raise IndexError, st1)
         ∧ self st1 = self Sample.st0.
Proof.
  eexists. split; [reflexivity|].
  exact (proj2 (X9_load_failure_atomic Sample2.srv_bad 31 Sample.st0 _
                  (Raise IndexError) eq_refl) IndexError eq_refl).
Defined.

(** X10: after a load that returned, the keys of the accumulated mapping
    are those it had and the ids of the questions of the response. *)
Theorem X10_loaded_keys (srv : server) (chapter_id : Z) (st st1 : state) :
  load_question_data srv chapter_id st = (Ok tt, st1) →
  ∀ k, k ∈ PyDict.keys (_questions (self st1)) ↔
       k ∈ PyDict.keys (_questions (self st))
       ∨ k ∈ q_id <$> srv_question_data srv chapter_id.
Proof.
  rewrite load_question_data_unfold. intros Hrun k.
  pose proof (keeps_self_load_loop (srv_question_data srv chapter_id) []
                (after_event st (EvGet (ENDPOINT_question_data chapter_id) [])))
    as Hself.
  destruct (load_loop _ _ _) as [[data|err] st'] eqn:Hloop; [|done].
  injection Hrun as <-. simpl in *.
  rewrite PyDictFacts.elem_of_keys_update, Hself,
    (load_loop_keys _ _ _ _ _ Hloop). simpl.
  change (PyDict.keys (@nil (Z * entry))) with (@nil Z). rewrite elem_of_nil.
  destruct (decide (k ∈ PyDict.keys (_questions (self st)))); tauto.
Qed.

Lemma X10_loaded_keys_witness :
  load_question_data Sample.srv0 31 Sample.st0 = (Ok tt, Sample.st_loaded)
  ∧ (4 ∈ PyDict.keys (_questions (self Sample.st_loaded)) ↔
     4 ∈ PyDict.keys (_questions (self Sample.st0))
     ∨ 4 ∈ q_id <$> srv_question_data Sample.srv0 31).
Proof.
  split; [reflexivity|].
  exact (X10_loaded_keys Sample.srv0 31 Sample.st0 Sample.st_loaded eq_refl 4).
Defined.

Lemma last_with_id_last (q : question) (qs1 qs2 : list question) :
  q_id q ∉ q_id <$> qs2 → last_with_id (q_id q) (qs1 ++ q :: qs2) = Some q.
Proof.
  intros Hlast.
  assert (last_with_id (q_id q) qs2 = None) as Hnone.
  { induction qs2 as [|q2 qs2 IH]; [done|].
    rewrite fmap_cons, not_elem_of_cons in Hlast. destruct Hlast as [Hne Hlast].
    cbn [last_with_id]. rewrite IH by done. by rewrite decide_False. }
  induction qs1 as [|q1 qs1 IH]; cbn [app last_with_id].
  - rewrite Hnone. by rewrite decide_True.
  - by rewrite IH.
Qed.

(** X11: when an id that the object does not know occurs more than once in
    a response, the entry stored is that of its last question: its text,
    type and [has_correct_answer], with an answer derived for it. *)
Theorem X11_last_in_response_wins (srv : server) (chapter_id : Z)
    (st st1 : state) (q : question) (qs1 qs2 : list question) :
  load_question_data srv chapter_id st = (Ok tt, st1) →
  srv_question_data srv chapter_id = qs1 ++ q :: qs2 →
  q_id q ∉ q_id <$> qs2 →
  q_id q ∉ PyDict.keys (_questions (self st)) →
  ∃ answer sa sb,
    derive_answer q sa = (Ok answer, sb)
    ∧ PyDict.get (_questions (self st1)) (q_id q) = Some (new_entry q answer).
Proof.
  rewrite load_question_data_unfold. intros Hrun Hresp Hlast Hnew.
  pose proof (keeps_self_load_loop (srv_question_data srv chapter_id) []
                (after_event st (EvGet (ENDPOINT_question_data chapter_id) [])))
    as Hself.
  destruct (load_loop _ _ _) as [[data|err] st'] eqn:Hloop; [|done].
  injection Hrun as <-. simpl in *.
  pose proof (load_loop_get _ _ _ _ _ (q_id q) Hloop Hnew) as Hget.
  rewrite Hresp, last_with_id_last in Hget by done.
  destruct Hget as (answer & sa & sb & Hd & Hget).
  exists answer, sa, sb. split; [done|].
  rewrite get_update, get_reverse, Hget; [done|].
  eapply load_loop_NoDup; [done|]. apply NoDup_nil_2.
Qed.

Lemma X11_last_in_response_wins_witness :
  ∃ st1 answer sa sb,
    load_question_data Sample2.srv_dup 31 Sample.st0 = (Ok tt, st1)
    ∧ derive_answer Sample2.q_second sa = (Ok answer, sb)
    ∧ PyDict.get (_questions (self st1)) 20 =
      Some (new_entry Sample2.q_second answer).
Proof.
  exists (load_question_data Sample2.srv_dup 31 Sample.st0).2.
  destruct (X11_last_in_response_wins Sample2.srv_dup 31 Sample.st0
              (load_question_data Sample2.srv_dup 31 Sample.st0).2
              Sample2.q_second [Sample2.q_first; Sample.q_sort] []
              eq_refl eq_refl (not_elem_of_nil _) (not_elem_of_nil _))
    as (answer & sa & sb & Hd & Hget).
  exists answer, sa, sb. split; [reflexivity|]. split; [exact Hd|exact Hget].
Defined.

(** X12: whatever its outcome, a load makes one request, to the question
    endpoint of the chapter, and after it adds nothing to the trace but
    warnings: it submits nothing and prints nothing. *)
Theorem X12_load_trace (srv : server) (chapter_id : Z) (st : state) :
  ∃ evs,
    trace (load_question_data srv chapter_id st).2 =
    trace st ++ EvGet (ENDPOINT_question_data chapter_id) [] :: evs
    ∧ Forall is_warning evs.
Proof.
  rewrite load_question_data_unfold.
  destruct (emits_only_load_loop (srv_question_data srv chapter_id) []
              (after_event st (EvGet (ENDPOINT_question_data chapter_id) [])))
    as (evs & Htr & Hevs).
  exists evs. split; [|done].
  destruct (load_loop _ _ _) as [[data|err] st']; simpl in *;
    by rewrite Htr, <-app_assoc.
Qed.

(** ** Submitting *)

(** X13: for an id of the accumulated mapping, [answer_question] posts the
    stored answer to the answer endpoint of the question and returns the
    body of the response; nothing else changes, so that submitting again
    posts the same answer again: an answer is derived once, at load time. *)
Theorem X13_answer_known (srv : server) (question_id : Z) (e : entry)
    (st : state) :
  PyDict.get (_questions (self st)) question_id = Some e →
  let post := EvPost (ENDPOINT_answer question_id) [("answer", e_answer e)] in
  answer_question srv question_id st =
  (Ok (Some (srv_answer srv question_id (e_answer e))), after_event st post)
  ∧ answer_question srv question_id (after_event st post) =
    (Ok (Some (srv_answer srv question_id (e_answer e))),
     after_event (after_event st post) post).
Proof.
  intros Hget post.
  unfold answer_question, mbind, M_bind, get_self. cbn [self after_event].
  by rewrite Hget.
Qed.

Lemma X13_answer_known_witness :
  ∃ e, PyDict.get (_questions (self Sample.st_loaded)) 1 = Some e
       ∧ answer_question Sample.srv0 1 Sample.st_loaded =
         (Ok (Some "{}"),
          after_event Sample.st_loaded
            (EvPost (ENDPOINT_answer 1) [("answer", e_answer e)])).
Proof.
  eexists. split; [reflexivity|].
  exact (proj1 (X13_answer_known Sample.srv0 1 _ Sample.st_loaded eq_refl)).
Defined.

Section batch.
Context (srv : server).
Import PyDict PyDictFacts.

Lemma grows_refl st : grows st st.
Proof.
  split_and!; [|done|done]. unfold same_but_questions. by destruct (self st).
Qed.

Lemma grows_self st st1 : self st1 = self st → grows st st1.
Proof.
  intros Hself. unfold grows. rewrite Hself.
  split_and!; [|done|done]. unfold same_but_questions. by destruct (self st).
Qed.

Lemma grows_trans st st1 st2 : grows st st1 → grows st1 st2 → grows st st2.
Proof.
  intros (Hs & Hk & Hn) (Hs' & Hk' & Hn'). split_and!; [|by auto|by auto].
  unfold same_but_questions in *.
  destruct (self st), (self st1), (self st2).
  unfold set_questions in *. simpl in *. congruence.
Qed.

Lemma grows_load_question_data chapter_id st :
  grows st (load_question_data srv chapter_id st).2.
Proof.
  destruct (load_question_data srv chapter_id st) as [r st1] eqn:Hrun.
  split_and!.
  - rewrite load_question_data_unfold in Hrun.
    pose proof (keeps_self_load_loop (srv_question_data srv chapter_id) []
                  (after_event st (EvGet (ENDPOINT_question_data chapter_id) [])))
      as Hself.
    destruct (load_loop _ _ _) as [[data|err] st'];
      injection Hrun as <- <-; simpl in *;
      unfold same_but_questions; rewrite Hself; by destruct (self st).
  - intros k e. by eapply load_question_data_old.
  - by eapply load_question_data_NoDup.
Qed.

Lemma grows_load_chapters_loop vp items : ∀ st,
  grows st (load_chapters_loop srv vp items st).2.
Proof.
  induction items as [|[chapter chapter_id] items IH]; intros st;
    [apply grows_refl|].
  cbn [load_chapters_loop]. unfold mbind at 1, M_bind at 1.
  destruct (startswith_any chapter vp).
  - unfold mbind at 1, M_bind at 1, emit.
    pose proof (grows_load_question_data chapter_id
                  (after_event st (EvWrapPrint "Loading chapter" (PStr chapter))))
      as Hg. unfold after_event in Hg.
    destruct (load_question_data srv chapter_id _) as [[[]|e] st1].
    + eapply grows_trans; [|apply IH]. eapply grows_trans; [|exact Hg].
      by apply grows_self.
    + eapply grows_trans; [|exact Hg]. by apply grows_self.
  - apply IH.
Qed.

Lemma grows_load_chapters chapters st :
  grows st (_load_chapters srv chapters st).2.
Proof. apply grows_load_chapters_loop. Qed.

Lemma keeps_self_show_question e : keeps_self (show_question e).
Proof.
  intros st. unfold show_question, mbind, M_bind, emit.
  by destruct (truthy _).
Qed.

Lemma keeps_self_list_loop items : keeps_self (list_loop items).
Proof.
  induction items as [|[id e] items IH]; intros st; [done|].
  cbn [list_loop]. unfold mbind, M_bind.
  pose proof (keeps_self_show_question e st) as Hs.
  destruct (show_question e st) as [[[]|err] st1]; simpl in *; [|done].
  by rewrite IH.
Qed.



End batch.

Section batch_more.
Context (srv : server).
Import PyDict PyDictFacts.

Lemma keeps_self_answer_question id : keeps_self (answer_question srv id).
Proof.
  intros st. unfold answer_question, mbind, M_bind, get_self, emit.
  by destruct (get (_questions (self st)) id).
Qed.

Lemma keeps_self_run_loop delay items : keeps_self (run_loop srv delay items).
Proof.
  induction items as [|[id e] items IH]; intros st; [done|].
  cbn [run_loop]. unfold mbind at 1, M_bind at 1.
  pose proof (keeps_self_show_question e st) as Hs.
  destruct (show_question e st) as [[[]|err] st1]; simpl in *; [|done].
  unfold mbind at 1 2, M_bind at 1 2, emit. cbn [self rng trace].
  pose proof (keeps_self_answer_question id
                {| self := self st1; rng := rng st1;
                   trace := trace st1 ++
                     [EvWrapPrint "Submitting answer" (e_answer e)] |}) as Ha.
  destruct (answer_question srv id _) as [[resp|err] st2]; simpl in *;
    [|congruence].
  unfold mbind, M_bind. cbn [self rng trace].
  rewrite IH. cbn [self]. congruence.
Qed.

Lemma emits_only_get_self P : emits_only P get_self.
Proof. intros st. exists []. by rewrite app_nil_r. Qed.
Lemma emits_only_put_self P b : emits_only P (put_self b).
Proof. intros st. exists []. by rewrite app_nil_r. Qed.

Lemma is_warning_quiet e : is_warning e → is_quiet e.
Proof. by destruct e. Qed.

Lemma emits_only_load_question_data chapter_id :
  emits_only is_quiet (load_question_data srv chapter_id).
Proof.
  unfold load_question_data.
  apply emits_only_bind; [by apply emits_only_emit|]. intros _.
  apply emits_only_bind.
  { eapply emits_only_mono; [apply is_warning_quiet|apply emits_only_load_loop]. }
  intros data. apply emits_only_bind; [apply emits_only_get_self|].
  intros b. apply emits_only_put_self.
Qed.

Lemma emits_only_load_chapters_loop vp items :
  emits_only is_quiet (load_chapters_loop srv vp items).
Proof.
  induction items as [|[chapter chapter_id] items IH]; [apply emits_only_ret|].
  cbn [load_chapters_loop]. apply emits_only_bind; [|by intros _].
  case_match; [|apply emits_only_ret].
  apply emits_only_bind; [by apply emits_only_emit|]. intros _.
  apply emits_only_load_question_data.
Qed.

Lemma emits_only_list_loop items : emits_only is_quiet (list_loop items).
Proof.
  induction items as [|[id e] items IH]; [apply emits_only_ret|].
  cbn [list_loop]. apply emits_only_bind; [|by intros _].
  unfold show_question. apply emits_only_bind; [by apply emits_only_emit|].
  intros _. case_match; by apply emits_only_emit.
Qed.
End batch_more.



Lemma quiet_no_posts evs :
  Forall is_quiet evs → posts_of evs = [] ∧ sleeps_of evs = [].
Proof.
  induction 1 as [|e evs He _ [IHp IHs]]; [done|].
  unfold posts_of, sleeps_of in *. destruct e; simpl; by rewrite ?IHp, ?IHs.
Qed.

(** X15: [list_questions] only reads and prints: whatever it adds to the
    trace, it never posts anything and never pauses. *)
Theorem X15_list_questions_quiet (srv : server) (chapters : option (list Z))
    (st : state) :
  ∃ evs,
    trace (list_questions srv chapters st).2 = trace st ++ evs
    ∧ Forall is_quiet evs
    ∧ posts_of evs = []
    ∧ sleeps_of evs = [].
Proof.
  assert (emits_only is_quiet (list_questions srv chapters)) as Hq.
  { unfold list_questions, _load_chapters.
    apply emits_only_bind.
    - apply emits_only_bind; [apply emits_only_get_self|].
      intros b. apply emits_only_load_chapters_loop.
    - intros _. apply emits_only_bind; [apply emits_only_get_self|].
      intros b. apply emits_only_list_loop. }
  destruct (Hq st) as (evs & Htr & Hevs). exists evs.
  split; [done|]. split; [done|]. by apply quiet_no_posts.
Qed.

(** X16: the derivation tests [has_correct_answer] for being the boolean
    false, the display tests its truth value: for a value that is falsy
    without being false ([None], 0, an empty string or list) the answer is
    derived from the correct answers by the type, and yet the display
    announces that no correct answer was specified and a random response
    selected. *)
Theorem X16_falsy_flag_display (q : question) (answer : pyval) (st : state) :
  q_has_correct_answer q ≠ PBool false →
  truthy (q_has_correct_answer q) = false →
  derive_answer q = derive_by_type q
  ∧ show_question (new_entry q answer) st =
    (Ok tt,
     after_event
       (after_event st (EvWrapPrint "Question" (PStr (q_question q))))
       (EvPrint "No correct answer specified. Selecting random response.")).
Proof.
  intros Hne Hfalsy. split; [by apply derive_by_type_eq|].
  unfold show_question, mbind, M_bind, emit. cbn [new_entry e_has_correct_answer].
  by rewrite Hfalsy.
Qed.

Lemma X16_falsy_flag_display_witness :
  derive_answer (Sample.q_mc PNone) Sample.st0 =
  (Ok (PList [PStr "B"]), Sample.st0)
  ∧ show_question (new_entry (Sample.q_mc PNone) (PList [PStr "B"])) Sample.st0 =
    (Ok tt,
     after_event
       (after_event Sample.st0 (EvWrapPrint "Question" (PStr "Q")))
       (EvPrint "No correct answer specified. Selecting random response.")).
Proof.
  split; [reflexivity|].
  exact (proj2 (X16_falsy_flag_display (Sample.q_mc PNone) (PList [PStr "B"])
                  Sample.st0 ltac:(discriminate) eq_refl)).
Defined.

Lemma filter_none {A} (P : A → Prop) `{∀ x, Decision (P x)} (l : list A) :
  (∀ x, x ∈ l → ¬ P x) → filter P l = [].
Proof.
  intros HP. induction l as [|x l IH]; [done|].
  rewrite filter_cons_False by (apply HP; by left).
  apply IH. intros y Hy. apply HP. by right.
Qed.

(** X17: a non-empty list of chapter numbers that match no required
    chapter makes [_load_chapters] do nothing at all: no request, no line,
    no change, no error. *)
Theorem X17_no_chapter_matches (srv : server) (nums : list Z) (st : state) :
  nums ≠ [] →
  (∀ name id, (name, id) ∈ required_chapters (self st) →
              matches_numbers nums name = false) →
  _load_chapters srv (Some nums) st = (Ok tt, st).
Proof.
  intros Hnums Hnone. unfold _load_chapters. cbn [default].
  unfold mbind, M_bind, get_self. rewrite load_chapters_loop_filter.
  rewrite filter_none; [done|].
  intros [name id] Hin. cbn beta. cbn [fst].
  rewrite startswith_any_tuple by done. unfold Datatypes.id.
  rewrite (Hnone name id Hin). discriminate.
Qed.

Lemma X17_no_chapter_matches_witness :
  _load_chapters Sample.srv0 (Some [7; 8]) Sample2.st_chapters =
  (Ok tt, Sample2.st_chapters).
Proof.
  refine (X17_no_chapter_matches Sample.srv0 [7; 8] Sample2.st_chapters
            ltac:(discriminate) _).
  intros name id Hin.
  change (required_chapters (self Sample2.st_chapters))
    with [("Chapter 3: Intro", 31); ("Chapter 10: Review", 34)] in Hin.
  apply elem_of_cons in Hin as [[= -> ->]|Hin]; [reflexivity|].
  apply elem_of_cons in Hin as [[= -> ->]|Hin]; [reflexivity|].
  by apply elem_of_nil in Hin.
Defined.

(** X18: whatever their outcome, [list_questions] and [run] change nothing
    of the object but its questions, keep every entry that was stored with
    the answer it had, and keep the keys distinct. *)
Theorem X18_batch_keeps_entries (srv : server) (chapters : option (list Z))
    (delay : Q) (st : state) :
  grows st (list_questions srv chapters st).2
  ∧ grows st (run srv chapters delay st).2.
Proof.
  pose proof (grows_load_chapters srv chapters st) as Hg. split.
  - unfold list_questions, mbind at 1, M_bind at 1.
    destruct (_load_chapters srv chapters st) as [[[]|e] st1]; [|done].
    eapply grows_trans; [exact Hg|]. apply grows_self.
    unfold mbind, M_bind, get_self. apply keeps_self_list_loop.
  - unfold run, mbind at 1, M_bind at 1.
    destruct (_load_chapters srv chapters st) as [[[]|e] st1]; [|done].
    eapply grows_trans; [exact Hg|]. apply grows_self.
    unfold mbind, M_bind, get_self. apply keeps_self_run_loop.
Qed.

(** ** Chapter numbers are matched as prefixes *)

Lemma pretty_N_go_app (n : N) : ∀ s, pretty_N_go n s = pretty_N_go n "" +:+ s.
Proof.
  induction (N.lt_wf_0 n) as [n _ IH]. intros s.
  destruct (decide (n = 0)%N) as [->|Hn]; [done|].
  rewrite !(pretty_N_go_step n) by lia.
  assert (n `div` 10 < n)%N as Hlt by (apply N.div_lt; lia).
  rewrite (IH _ Hlt (String _ s)), (IH _ Hlt (String _ "")).
  by rewrite PyStrFacts.app_assoc.
Qed.

Lemma pretty_N_digit (n k : N) :
  (0 < n)%N → (k < 10)%N →
  pretty (10 * n + k)%N = pretty n +:+ String (pretty_N_char k) "".
Proof.
  intros Hn Hk. unfold pretty, pretty_N.
  rewrite !decide_False by lia.
  rewrite pretty_N_go_step by lia.
  replace ((10 * n + k) `div` 10)%N with n
    by (apply N.div_unique with k; lia).
  replace ((10 * n + k) `mod` 10)%N with k
    by (apply N.mod_unique with n; lia).
  apply pretty_N_go_app.
Qed.

Lemma pretty_Z_digit (i k : Z) :
  0 < i → 0 ≤ k < 10 →
  pretty (10 * i + k) = pretty i +:+ String (pretty_N_char (Z.to_N k)) "".
Proof.
  intros Hi Hk.
  destruct i as [|p|p]; [lia| |lia].
  destruct (10 * Z.pos p + k) as [|p'|p'] eqn:Hz; [lia| |lia].
  unfold pretty at 1 2, pretty_Z, pretty at 1 2, pretty_positive.
  replace (N.pos p') with (10 * N.pos p + Z.to_N k)%N by lia.
  apply pretty_N_digit; lia.
Qed.

(** X19: a chapter number selects by prefix: the number [i] also selects
    every chapter whose number is [i] followed by one more digit, so that
    asking for chapter 1 loads chapters 10 to 19 as well. *)
Theorem X19_number_is_a_prefix (i k : Z) (rest : string) :
  0 < i → 0 ≤ k < 10 →
  startswith_any ("Chapter " +:+ pretty (10 * i + k) +:+ rest)
    (valid_prefixes [i]) = true.
Proof.
  intros Hi Hk. cbn [valid_prefixes fmap list_fmap startswith_any existsb].
  rewrite orb_false_r. apply PyStrFacts.startswith_spec.
  exists (String (pretty_N_char (Z.to_N k)) "" +:+ rest).
  by rewrite pretty_Z_digit, !PyStrFacts.app_assoc.
Qed.

Lemma X19_number_is_a_prefix_witness :
  startswith_any "Chapter 10: Review" (valid_prefixes [1]) = true.
Proof.
  exact (X19_number_is_a_prefix 1 0 ": Review" ltac:(lia) ltac:(lia)).
Defined.

(** ** Nothing to choose from *)

(** X20: [random.choice] on an empty list raises [IndexError] and on a
    value without a length raises [TypeError], and so does the derivation,
    leaving the state as it is: for a question without correct answer and
    no choices, and for a written-answer question with no correct answer
    listed. *)
Theorem X20_nothing_to_choose (q : question) (st : state) :
  (q_has_correct_answer q = PBool false → q_choices q = PList [] →
   derive_answer q st = (Raise IndexError, st))
  ∧ (q_has_correct_answer q = PBool false → q_choices q = PNone →
     derive_answer q st = (Raise TypeError, st))
  ∧ (q_has_correct_answer q ≠ PBool false →
     q_type q = "wa" ∨ q_type q = "na" → q_correct_answers q = PList [] →
     derive_answer q st = (Raise IndexError, st)).
Proof.
  split_and!.
  - intros Hhca Hch. unfold derive_answer. by rewrite Hhca, Hch.
  - intros Hhca Hch. unfold derive_answer. by rewrite Hhca, Hch.
  - intros Hhca Hty Hca. rewrite derive_by_type_eq by done.
    unfold derive_by_type. rewrite Hca. by destruct Hty as [-> | ->].
Qed.

Lemma X20_nothing_to_choose_witness :
  derive_answer
    (Sample.mk_question 12 "wa" (PBool true) (PList []) (PList [])) Sample.st0 =
  (Raise IndexError, Sample.st0).
Proof.
  exact (proj2 (proj2 (X20_nothing_to_choose
                         (Sample.mk_question 12 "wa" (PBool true) (PList [])
                            (PList [])) Sample.st0))
           ltac:(discriminate) (or_introl eq_refl) eq_refl).
Defined.

(** ** Loading, then submitting *)

(** X21: after a load that returned, every question of the response can be
    answered: [answer_question] on its id posts a stored answer and returns
    the body of the response. *)
Theorem X21_loaded_then_answered (srv : server) (chapter_id : Z)
    (st st1 : state) (q : question) :
  load_question_data srv chapter_id st = (Ok tt, st1) →
  q ∈ srv_question_data srv chapter_id →
  ∃ e,
    PyDict.get (_questions (self st1)) (q_id q) = Some e
    ∧ answer_question srv (q_id q) st1 =
      (Ok (Some (srv_answer srv (q_id q) (e_answer e))),
       after_event st1
         (EvPost (ENDPOINT_answer (q_id q)) [("answer", e_answer e)])).
Proof.
  rewrite load_question_data_unfold. intros Hrun Hq.
  pose proof (keeps_self_load_loop (srv_question_data srv chapter_id) []
                (after_event st (EvGet (ENDPOINT_question_data chapter_id) [])))
    as Hself.
  destruct (load_loop _ _ _) as [[data|err] st'] eqn:Hloop; [|done].
  injection Hrun as <-. simpl in Hself.
  assert (q_id q ∈ PyDict.keys
            (PyDict.update (_questions (self st')) data)) as Hkey.
  { rewrite PyDictFacts.elem_of_keys_update, Hself.
    destruct (decide (q_id q ∈ PyDict.keys (_questions (self st))));
      [by left|right].
    rewrite (load_loop_keys _ _ _ _ _ Hloop). right. split; [|done].
    apply list_elem_of_fmap. by exists q. }
  destruct (PyDict.get (PyDict.update (_questions (self st')) data) (q_id q))
    as [e|] eqn:Hget; [|by apply PyDictFacts.get_None in Hget].
  exists e. cbn [self _questions set_questions]. split; [done|].
  unfold answer_question, mbind, M_bind, get_self.
  cbn [self _questions set_questions]. by rewrite Hget.
Qed.

Lemma X21_loaded_then_answered_witness :
  ∃ e,
    PyDict.get (_questions (self Sample.st_loaded)) 4 = Some e
    ∧ answer_question Sample.srv0 4 Sample.st_loaded =
      (Ok (Some (srv_answer Sample.srv0 4 (e_answer e))),
       after_event Sample.st_loaded
         (EvPost (ENDPOINT_answer 4) [("answer", e_answer e)])).
Proof.
  refine (X21_loaded_then_answered Sample.srv0 31 Sample.st0 Sample.st_loaded
            Sample.q_survey eq_refl _).
  apply elem_of_cons. right. apply elem_of_cons. by left.
Defined.

(** ** The entry point *)

Section entry.
Context (srv : server).

Lemma emits_only_raise {A} P (e : exn) : emits_only P (raise (A:=A) e).
Proof. intros st. exists []. by rewrite app_nil_r. Qed.

Lemma emits_only_from_option {A} P (o : option A) (e : exn) :
  emits_only P (from_option mret (raise e) o).
Proof. destruct o; [apply emits_only_ret|apply emits_only_raise]. Qed.

Lemma emits_only_init CID user pass cid :
  emits_only submits_nothing (__init__ srv CID user pass cid).
Proof.
  unfold __init__, _csrf_token, _load_csrf_cookie, _login, _get_chapters.
  repeat first
    [ apply emits_only_bind; [|intros ?]
    | apply emits_only_from_option
    | apply emits_only_get_self
    | apply emits_only_put_self
    | apply emits_only_ret
    | apply emits_only_raise
    | by apply emits_only_emit
    | case_match ].
Qed.

Lemma is_quiet_submits_nothing e : is_quiet e → submits_nothing e.
Proof. by destruct e. Qed.

Lemma emits_only_list_questions chapters :
  emits_only submits_nothing (list_questions srv chapters).
Proof.
  eapply emits_only_mono; [apply is_quiet_submits_nothing|].
  unfold list_questions, _load_chapters.
  apply emits_only_bind.
  - apply emits_only_bind; [apply emits_only_get_self|].
    intros b. apply emits_only_load_chapters_loop.
  - intros _. apply emits_only_bind; [apply emits_only_get_self|].
    intros b. apply emits_only_list_loop.
Qed.
End entry.

(** X22: [main] raises what the lookup of the user name or of the password
    raises, before any request; and whatever happens it submits no answer
    and never pauses: the only post it can make is the login, whose address
    is not that of an answer. *)
Theorem X22_main_submits_nothing (srv : server)
    (config : string → string → result string) (g : nat → nat)
    (tr : list event) :
  (∀ e, config "credentials" "username" = Raise e ∨
        ((∃ user, config "credentials" "username" = Ok user)
         ∧ config "credentials" "password" = Raise e) →
        main srv config g tr = (Raise e, g, tr))
  ∧ (∃ evs, (main srv config g tr).2 = tr ++ evs ∧ Forall submits_nothing evs)
  ∧ (∀ question_id, ENDPOINT_answer question_id ≠ ENDPOINT_login).
Proof.
  split_and!.
  - intros e [Hu|[[user Hu] Hp]]; unfold main; by rewrite Hu, ?Hp.
  - unfold main.
    destruct (config "credentials" "username") as [user|e];
      [|exists []; split; [by rewrite app_nil_r|done]].
    destruct (config "credentials" "password") as [pass|e];
      [|exists []; split; [by rewrite app_nil_r|done]].
    unfold Psych210Bot, new.
    destruct (emits_only_init srv COURSE_ID user pass None
                {| self := blank; rng := g; trace := tr |})
      as (evs & Htr & Hevs).
    destruct (__init__ srv COURSE_ID user pass None _) as [[[]|e] st1];
      simpl in *; [|by exists evs].
    destruct (emits_only_list_questions srv None
                {| self := self st1; rng := rng st1; trace := trace st1 |})
      as (evs' & Htr' & Hevs').
    destruct (list_questions srv None _) as [r st2]. simpl in *.
    exists (evs ++ evs'). split; [|by apply Forall_app].
    by rewrite Htr', Htr, <-app_assoc.
  - intros question_id. unfold ENDPOINT_answer, ENDPOINT_login.
    cbv [String.append]. discriminate.
Qed.

Lemma X22_main_submits_nothing_witness :
  main Sample.srv0 (fun _ _ => Raise KeyError) (fun _ => 0%nat) [] =
  (Raise KeyError, fun _ => 0%nat, [])
  ∧ posts_of (main Sample.srv0 (credentials "alice" "secret")
                (fun _ => 0%nat) []).2 =
    [(ENDPOINT_login, [("username", PStr "alice"); ("password", PStr "secret")])].
Proof.
  split; [|reflexivity].
  exact (proj1 (X22_main_submits_nothing Sample.srv0 (fun _ _ => Raise KeyError)
                  (fun _ => 0%nat) []) KeyError (or_introl eq_refl)).
Defined.
